(** * Gesture recognition and camera mapping (HandTracker.jsx, ScatterPlot3D.jsx)

    A shallow embedding of the hand-gesture pipeline of the dashboard:
    the pose classifier, the gesture detector with its cross-frame refs
    (frontend/src/HandTracker.jsx) and the per-tick camera mapper
    (GestureController in frontend/src/ScatterPlot3D.jsx).

    JavaScript numbers are modelled as real numbers ([R]): [Math.sqrt],
    [Math.abs], [Math.min], [Math.max] are [sqrt], [Rabs], [Rmin], [Rmax].
    Rounding, NaN and infinities of IEEE doubles are outside the model.
    Reading a property of [undefined] (a hand with too few landmarks) is
    modelled as the abrupt completion [TypeError]. *)

From Stdlib Require Import Reals Lra Psatz List Bool Arith Lia ZArith.
From Stdlib Require Import Sorted Permutation.
From Stdlib Require String.
Import String.StringSyntax.
Delimit Scope string_scope with string.
Import ListNotations.
Open Scope R_scope.

(** ** Data model *)

(** A landmark as delivered by the landmark service; also the shape of the
    [{x, y, z}] objects built by [getPalmCenter] and for [gesture.delta]. *)
Record Landmark : Type := mkLandmark { x : R; y : R; z : R }.

Definition Point : Type := Landmark.

(** [results.multiHandLandmarks[i]]: an array of landmarks. *)
Definition Hand : Type := list Landmark.

(** The gesture objects built by the detector: [{type: 'fist', position,
    delta?}], [{type: 'twohand-pinch', strength}] and
    [{type: 'twohand-spread', strength}].  The JavaScript [null] gesture is
    [None : option Gesture]. *)
Inductive Gesture : Type :=
| Fist (position : Point) (delta : option Point)
| TwoHandPinch (strength : R)
| TwoHandSpread (strength : R).

(** ** Completions: a value, or a thrown TypeError *)

Inductive Completion (A : Type) : Type :=
| Normal (a : A)
| TypeError.

Arguments Normal {A} a.
Arguments TypeError {A}.

Module Pure.

Definition bind {A B : Type} (c : Completion A) (k : A -> Completion B)
  : Completion B :=
  match c with
  | Normal a => k a
  | TypeError => TypeError
  end.

(** [a && b] on booleans: [b] is evaluated only when [a] is true. *)
Definition andThen (a b : Completion bool) : Completion bool :=
  bind a (fun va => if va then b else Normal false).

End Pure.

Declare Scope pure_scope.
Delimit Scope pure_scope with pure.
Notation "'let?' v ':=' c 'in' k" :=
  (Pure.bind c (fun v => k))
  (at level 10, v name, c at level 100, k at level 200) : pure_scope.
Notation "a '&&?' b" := (Pure.andThen a b)
  (at level 40, left associativity) : pure_scope.

Open Scope pure_scope.

(** [hand[i]]: [undefined] (here [None]) when [i] is out of range. *)
Definition at_index (hand : Hand) (i : nat) : option Landmark :=
  nth_error hand i.

(** [v.x], [v.y], [v.z] where [v] may be [undefined]. *)
Definition prop (f : Landmark -> R) (v : option Landmark) : Completion R :=
  match v with
  | Some p => Normal (f p)
  | None => TypeError
  end.

(** Comparison operators of the source as booleans. *)
Definition Rltb (a b : R) : bool := if Rlt_dec a b then true else false.
Definition Rgtb (a b : R) : bool := Rltb b a.

(** ** Pose classifier (HandTracker.jsx, lines 37-80) *)

(** [distance(p1, p2)]: only [x] and [y] are read. *)
Definition distance (p1 p2 : option Landmark) : Completion R :=
  let? x1 := prop x p1 in
  let? x2 := prop x p2 in
  let? y1 := prop y p1 in
  let? y2 := prop y p2 in
  Normal (sqrt ((x1 - x2) ^ 2 + (y1 - y2) ^ 2)).

(** One coordinate of [getPalmCenter]. *)
Definition palmCoord (f : Landmark -> R) (hand : Hand) : Completion R :=
  let wrist := at_index hand 0 in
  let indexMcp := at_index hand 5 in
  let? a := prop f wrist in
  let? b := prop f indexMcp in
  let? c := prop f (at_index hand 9) in
  let? d := prop f (at_index hand 13) in
  let? e := prop f (at_index hand 17) in
  Normal ((a + b + c + d + e) / 5).

Definition getPalmCenter (hand : Hand) : Completion Point :=
  let? px := palmCoord x hand in
  let? py := palmCoord y hand in
  let? pz := palmCoord z hand in
  Normal (mkLandmark px py pz).

Definition isHandPinched (hand : Hand) : Completion bool :=
  let thumbTip := at_index hand 4 in
  let indexTip := at_index hand 8 in
  let? pinchDist := distance thumbTip indexTip in
  Normal (Rltb pinchDist 0.1).

(** [tip.y > mcp.y] *)
Definition curled (tip mcp : option Landmark) : Completion bool :=
  let? t := prop y tip in
  let? m := prop y mcp in
  Normal (Rgtb t m).

Definition isHandFist (hand : Hand) : Completion bool :=
  let indexTip := at_index hand 8 in
  let middleTip := at_index hand 12 in
  let ringTip := at_index hand 16 in
  let pinkyTip := at_index hand 20 in
  let indexMcp := at_index hand 5 in
  let middleMcp := at_index hand 9 in
  let ringMcp := at_index hand 13 in
  let pinkyMcp := at_index hand 17 in
  let fingersCurled :=
    curled indexTip indexMcp &&?
    curled middleTip middleMcp &&?
    curled ringTip ringMcp &&?
    curled pinkyTip pinkyMcp in
  fingersCurled.

(** ** The HandTracker component: refs and state (lines 25-35) *)

Inductive Status : Type :=
| initializing | ready | tracking | no_hand
| permission_denied | no_camera | error | disabled.

(** The cross-frame refs ([useRef(null)]; [None] is [null]), the [status]
    state and whether [canvasRef.current] holds the canvas element (it is
    rendered only while the [enabled] prop is true, line 303). *)
Record Tracker : Type := mkTracker {
  lastPositionRef : option Point;
  lastPinchDistRef : option R;
  lastTwoHandsDistRef : option R;
  lastTwoHandsCenterRef : option Point;
  status : Status;
  canvasRef : bool
}.

Definition with_lastPositionRef (v : option Point) (t : Tracker) : Tracker :=
  mkTracker v (lastPinchDistRef t) (lastTwoHandsDistRef t)
            (lastTwoHandsCenterRef t) (status t) (canvasRef t).

Definition with_lastPinchDistRef (v : option R) (t : Tracker) : Tracker :=
  mkTracker (lastPositionRef t) v (lastTwoHandsDistRef t)
            (lastTwoHandsCenterRef t) (status t) (canvasRef t).

Definition with_lastTwoHandsDistRef (v : option R) (t : Tracker) : Tracker :=
  mkTracker (lastPositionRef t) (lastPinchDistRef t) v
            (lastTwoHandsCenterRef t) (status t) (canvasRef t).

Definition with_lastTwoHandsCenterRef (v : option Point) (t : Tracker)
  : Tracker :=
  mkTracker (lastPositionRef t) (lastPinchDistRef t) (lastTwoHandsDistRef t)
            v (status t) (canvasRef t).

Definition with_status (v : Status) (t : Tracker) : Tracker :=
  mkTracker (lastPositionRef t) (lastPinchDistRef t) (lastTwoHandsDistRef t)
            (lastTwoHandsCenterRef t) v (canvasRef t).

Definition with_canvasRef (v : bool) (t : Tracker) : Tracker :=
  mkTracker (lastPositionRef t) (lastPinchDistRef t) (lastTwoHandsDistRef t)
            (lastTwoHandsCenterRef t) (status t) v.

(** A freshly mounted component: every ref is [null]. *)
Definition mountTracker (enabled : bool) : Tracker :=
  mkTracker None None None None
            (if enabled then initializing else disabled) enabled.

(** ** Effectful code: the component state threaded through, with throws *)

Definition Eff (A : Type) : Type := Tracker -> Completion A * Tracker.

Module Eff.

Definition ret {A : Type} (a : A) : Eff A := fun t => (Normal a, t).

Definition bind {A B : Type} (c : Eff A) (k : A -> Eff B) : Eff B :=
  fun t =>
    match c t with
    | (Normal a, t') => k a t'
    | (TypeError, t') => (TypeError, t')
    end.

(** A pure computation that may throw; the refs written so far stay. *)
Definition lift {A : Type} (c : Completion A) : Eff A := fun t => (c, t).

Definition read {A : Type} (f : Tracker -> A) : Eff A :=
  fun t => (Normal (f t), t).

Definition write (f : Tracker -> Tracker) : Eff unit :=
  fun t => (Normal tt, f t).

End Eff.

Declare Scope eff_scope.
Delimit Scope eff_scope with eff.
Notation "'let*' v ':=' c 'in' k" :=
  (Eff.bind c (fun v => k))
  (at level 10, v name, c at level 100, k at level 200) : eff_scope.
Notation "c ';;' k" :=
  (Eff.bind c (fun _ => k))
  (at level 100, k at level 200, right associativity) : eff_scope.

Open Scope eff_scope.

(** ** Gesture detector (lines 82-168) *)

(** The [{x, y, z}] object of the per-coordinate difference [a - b]. *)
Definition pointDiff (a b : Point) : Point :=
  mkLandmark (x a - x b) (y a - y b) (z a - z b).

Definition detectTwoHandGesture (landmarks : list Hand)
  : Eff (option Gesture) :=
  match landmarks with
  | hand1 :: hand2 :: _ =>
      let* palm1 := Eff.lift (getPalmCenter hand1) in
      let* palm2 := Eff.lift (getPalmCenter hand2) in
      let* bothPinched :=
        Eff.lift (isHandPinched hand1 &&? isHandPinched hand2) in
      let* handsDistance := Eff.lift (distance (Some palm1) (Some palm2)) in
      let center := mkLandmark ((x palm1 + x palm2) / 2)
                               ((y palm1 + y palm2) / 2)
                               ((z palm1 + z palm2) / 2) in
      let* last := Eff.read lastTwoHandsDistRef in
      let gesture :=
        match bothPinched, last with
        | true, Some lastDist =>
            let distDelta := handsDistance - lastDist in
            if Rgtb (Rabs distDelta) 0.008 then
              if Rgtb distDelta 0 then
                Some (TwoHandSpread (Rmin 1 (distDelta * 12)))
              else
                Some (TwoHandPinch (Rmin 1 (Rabs distDelta * 12)))
            else None
        | _, _ => None
        end in
      Eff.write (with_lastTwoHandsDistRef (Some handsDistance)) ;;
      Eff.ret gesture
  | _ => Eff.lift TypeError
  end.

Definition detectSingleHandGesture (hand : Hand) : Eff (option Gesture) :=
  let* palmCenter := Eff.lift (getPalmCenter hand) in
  let* fistDetected := Eff.lift (isHandFist hand) in
  if fistDetected then
    let* last := Eff.read lastPositionRef in
    let gesture :=
      match last with
      | Some lastPosition =>
          Fist palmCenter (Some (pointDiff palmCenter lastPosition))
      | None => Fist palmCenter None
      end in
    Eff.write (with_lastPositionRef (Some palmCenter)) ;;
    Eff.ret (Some gesture)
  else
    Eff.write (with_lastPositionRef None) ;;
    Eff.ret None.

(** [landmarks] is [results.multiHandLandmarks], which may be [undefined]. *)
Definition detectGesture (landmarks : option (list Hand))
  : Eff (option Gesture) :=
  match landmarks with
  | None | Some [] => Eff.ret None
  | Some ((_ :: _ :: _) as hands) =>
      Eff.write (with_lastPositionRef None) ;;
      Eff.write (with_lastPinchDistRef None) ;;
      detectTwoHandGesture hands
  | Some [hand] =>
      Eff.write (with_lastTwoHandsDistRef None) ;;
      Eff.write (with_lastTwoHandsCenterRef None) ;;
      detectSingleHandGesture hand
  end.

(** What one vision callback does with the [onGesture] prop. *)
Inductive Emission : Type :=
| NotCalled
| Emit (gesture : option Gesture).

(** [onResults] (lines 171-215).  Drawing on the canvas is not modelled;
    the [onGesture] prop is the one ScatterPlot3D always passes. *)
Definition onResults (multiHandLandmarks : option (list Hand))
  : Eff Emission :=
  let* canvas := Eff.read canvasRef in
  if negb canvas then Eff.ret NotCalled
  else
    match multiHandLandmarks with
    | Some (_ :: _) =>
        Eff.write (with_status tracking) ;;
        let* gesture := detectGesture multiHandLandmarks in
        Eff.ret (Emit gesture)
    | _ =>
        Eff.write (with_status no_hand) ;;
        Eff.write (with_lastPositionRef None) ;;
        Eff.ret (Emit None)
    end.

(** ** The parent component (ScatterPlot3D.jsx, lines 283-346, 395-415)

    The tracker is mounted while the plot is fullscreen; the toggle button
    flips [handTrackingEnabled]. *)

Record App : Type := mkApp {
  tracker : Tracker;
  handTrackingEnabled : bool;
  currentGesture : option Gesture
}.

(** What a change of the [enabled] prop does to the mounted HandTracker:
    the effect of lines 218-301 (its cleanup stops the stream, its body sets
    the status) and the render of line 303 (the canvas exists only while
    enabled).  No ref of the detector is written. *)
Definition enabledEffect (enabled : bool) (t : Tracker) : Tracker :=
  with_canvasRef enabled
    (with_status (if enabled then initializing else disabled) t).

(** [setHandTrackingEnabled(v)] followed by the effects it triggers: the
    tracker's, and "Clear gesture when hand tracking is disabled"
    (lines 341-346). *)
Definition setHandTrackingEnabled (v : bool) (a : App) : App :=
  mkApp (enabledEffect v (tracker a)) v
        (if v then currentGesture a else None).

(** The toggle button (line 397). *)
Definition toggleHandTracking (a : App) : App :=
  setHandTrackingEnabled (negb (handTrackingEnabled a)) a.

(** [handleGesture] (lines 336-339). *)
Definition handleGesture (gesture : option Gesture) (a : App) : App :=
  mkApp (tracker a) (handTrackingEnabled a) gesture.

(** One vision callback delivered to the mounted tracker; a throw inside
    [onResults] leaves [currentGesture] as it was. *)
Definition visionCallback (multiHandLandmarks : option (list Hand)) (a : App)
  : App :=
  match onResults multiHandLandmarks (tracker a) with
  | (Normal (Emit gesture), t') =>
      handleGesture gesture (mkApp t' (handTrackingEnabled a) (currentGesture a))
  | (_, t') => mkApp t' (handTrackingEnabled a) (currentGesture a)
  end.

(** Entering fullscreen mounts a fresh tracker; hand tracking starts off
    ([useState(false)], [useState(null)]). *)
Definition enterFullscreen : App := mkApp (mountTracker false) false None.

Inductive Event : Type :=
| Toggle
| Vision (multiHandLandmarks : option (list Hand))
| LeaveAndReenterFullscreen.

Definition handle (a : App) (e : Event) : App :=
  match e with
  | Toggle => toggleHandTracking a
  | Vision r => visionCallback r a
  | LeaveAndReenterFullscreen => enterFullscreen
  end.

Definition runApp (events : list Event) : App :=
  fold_left handle events enterFullscreen.

(** What a sequence of vision callbacks on one tracker emits, in order
    ([None] for a callback that threw). *)
Fixpoint runFrames (frames : list (option (list Hand))) (t : Tracker)
  : list (option Emission) * Tracker :=
  match frames with
  | [] => ([], t)
  | f :: rest =>
      let '(c, t') := onResults f t in
      let '(out, t'') := runFrames rest t' in
      ((match c with Normal e => Some e | TypeError => None end) :: out, t'')
  end.

(** ** Camera mapper (ScatterPlot3D.jsx, lines 8-54) *)

(** The methods of three.js [Vector3] called on [camera.position]. *)
Module Vector3.

Record t : Type := mk { x : R; y : R; z : R }.

Definition length (v : t) : R := sqrt (x v * x v + y v * y v + z v * z v).

Definition multiplyScalar (v : t) (s : R) : t :=
  mk (x v * s) (y v * s) (z v * s).

Definition divideScalar (v : t) (s : R) : t := multiplyScalar v (1 / s).

(** [divideScalar(this.length() || 1)] *)
Definition normalize (v : t) : t :=
  divideScalar v (if Req_EM_T (length v) 0 then 1 else length v).

End Vector3.

(** [Math.atan2(b, a)], and the azimuth of a position seen from the orbit
    target [0, 0, 0] (line 49), as the orbit controller computes it. *)
Definition atan2 (b a : R) : R :=
  if Rlt_dec 0 a then atan (b / a)
  else if Rlt_dec a 0 then
         if Rlt_dec b 0 then atan (b / a) - PI else atan (b / a) + PI
       else if Rlt_dec 0 b then PI / 2
            else if Rlt_dec b 0 then - PI / 2 else 0.

Definition azimuthOf (v : Vector3.t) : R := atan2 (Vector3.x v) (Vector3.z v).

(** The camera and the orbit controller that drives it. *)
Record Rig (K : Type) : Type := mkRig {
  position : Vector3.t;
  controls : K
}.

Arguments mkRig {K} position controls.
Arguments position {K} r.
Arguments controls {K} r.

(** The orbit controller is a collaborator: only its interface is used. *)
Class OrbitControls (K : Type) : Type := {
  getAzimuthalAngle : Rig K -> R;
  setAzimuthalAngle : R -> Rig K -> Rig K;
  update : Rig K -> Rig K
}.

Section GestureController.

Context {K : Type} {OC : OrbitControls K}.

Definition rotateSensitivity : R := 15.

Definition minDistance : R := 3.
Definition maxDistance : R := 20.

(** [camera.position.normalize().multiplyScalar(newDistance)] *)
Definition rescale (newDistance : R) (rig : Rig K) : Rig K :=
  mkRig (Vector3.multiplyScalar (Vector3.normalize (position rig))
                                newDistance)
        (controls rig).

(** Lines 21-36: the branch taken for a non-null gesture. *)
Definition applyGesture (gesture : Gesture) (rig : Rig K) : Rig K :=
  match gesture with
  | Fist _ (Some delta) =>
      let azimuthAngle := getAzimuthalAngle rig in
      setAzimuthalAngle (azimuthAngle - x delta * rotateSensitivity) rig
  | Fist _ None => rig
  | TwoHandPinch strength =>
      let currentDistance := Vector3.length (position rig) in
      let newDistance :=
        Rmax 3 (Rmin 20 (currentDistance + strength * 0.5)) in
      rescale newDistance rig
  | TwoHandSpread strength =>
      let currentDistance := Vector3.length (position rig) in
      let newDistance :=
        Rmax 3 (Rmin 20 (currentDistance - strength * 0.5)) in
      rescale newDistance rig
  end.

(** The [useFrame] callback (lines 12-39); [controlsMounted] tells
    whether [controlsRef.current] is set. *)
Definition useFrame (controlsMounted enabled : bool)
           (gesture : option Gesture) (rig : Rig K) : Rig K :=
  if negb controlsMounted then rig
  else
    match enabled, gesture with
    | true, Some g => update (applyGesture g rig)
    | _, _ => update rig
    end.

(** The render ticks of a mounted, enabled controller, one gesture each. *)
Definition runTicks (gestures : list Gesture) (rig : Rig K) : Rig K :=
  fold_left (fun r g => useFrame true true (Some g) r) gestures rig.

Definition cameraDistance (rig : Rig K) : R := Vector3.length (position rig).

End GestureController.

Definition isZoom (g : Gesture) : bool :=
  match g with
  | TwoHandPinch _ | TwoHandSpread _ => true
  | Fist _ _ => false
  end.

(** ** Distances used in the statements *)

(** Distance in the image plane: the value [distance] computes for two
    defined points. *)
Definition planarDistance (p q : Point) : R :=
  sqrt ((x p - x q) ^ 2 + (y p - y q) ^ 2).

(** Claim wording: the Euclidean distance between two landmarks, which
    have three coordinates. *)
Definition euclideanDistance (p q : Landmark) : R :=
  sqrt ((x p - x q) ^ 2 + (y p - y q) ^ 2 + (z p - z q) ^ 2).

(** At most one of the single-hand and the two-hand sub-state holds a
    value. *)
Definition isolated (t : Tracker) : Prop :=
  lastPositionRef t = None \/
  (lastTwoHandsDistRef t = None /\ lastTwoHandsCenterRef t = None).

(** ** Sample inputs *)

Definition tipIndices : list nat := [4; 8; 12; 16; 20]%nat.

(** A 21-landmark hand with the five finger tips at [tip] and every other
    landmark (wrist, joints) at [base]. *)
Definition handWith (base tip : Landmark) : Hand :=
  map (fun i => if existsb (Nat.eqb i) tipIndices then tip else base)
      (seq 0 21).

(** All landmarks on one point: thumb and index tips touch (pinched), no
    finger tip lies below its joint (not a fist). *)
Definition uniformHand (p : Landmark) : Hand := handWith p p.

(** Tips 0.1 below the joints in image coordinates: a fist whose thumb and
    index tips coincide. *)
Definition fistAt (p : Landmark) : Hand :=
  handWith p (mkLandmark (x p) (y p + 0.1) (z p)).

(** An open hand: the thumb tip 0.2 to the side of the index tip, every
    other landmark on [p]. *)
Definition spreadHand (p : Landmark) : Hand :=
  map (fun i => if Nat.eqb i 4 then mkLandmark (x p + 0.2) (y p) (z p) else p)
      (seq 0 21).

(** Thumb and index tips aligned in the image but far apart in depth. *)
Definition depthSplitHand : Hand :=
  [ mkLandmark 0 0 0; mkLandmark 0 0 0; mkLandmark 0 0 0; mkLandmark 0 0 0;
    mkLandmark 0 0 0; mkLandmark 0 0 0; mkLandmark 0 0 0; mkLandmark 0 0 0;
    mkLandmark 0 0 1; mkLandmark 0 0 0; mkLandmark 0 0 0; mkLandmark 0 0 0;
    mkLandmark 0 0 0; mkLandmark 0 0 0; mkLandmark 0 0 0; mkLandmark 0 0 0;
    mkLandmark 0 0 0; mkLandmark 0 0 0; mkLandmark 0 0 0; mkLandmark 0 0 0;
    mkLandmark 0 0 0 ].

(** A mounted, enabled tracker just after its refs were created. *)
Definition freshTracker : Tracker := enabledEffect true (mountTracker false).

(** An orbit controller without damping or pending input: the azimuth is
    stored as given and [update] has nothing to apply. *)
#[export] Instance directControls : OrbitControls R := {
  getAzimuthalAngle := fun rig => controls rig;
  setAzimuthalAngle := fun a rig => mkRig (position rig) a;
  update := fun rig => rig
}.

(** The camera as the Canvas creates it: [position: [8, 6, 8]]. *)
Definition initialRig : Rig R := mkRig (Vector3.mk 8 6 8) 0.

(** ** Moving a hand in the frame *)

(** The landmark [p] moved by the offset [v], and a hand with every
    landmark moved by the same offset. *)
Definition translate (v p : Landmark) : Landmark :=
  mkLandmark (x p + x v) (y p + y v) (z p + z v).

Definition translateHand (v : Landmark) (hand : Hand) : Hand :=
  map (translate v) hand.

(** [hand[i].y], 0 where the hand has no landmark [i]. *)
Definition landmarkY (hand : Hand) (i : nat) : R :=
  match at_index hand i with
  | Some p => y p
  | None => 0
  end.

(** The landmarks [isHandFist] compares: each finger tip with its joint. *)
Definition fingerJoints : list (nat * nat) :=
  [(8, 5); (12, 9); (16, 13); (20, 17)]%nat.

(** ** What holds in every state of the app *)

Definition appInvariant (a : App) : Prop :=
  canvasRef (tracker a) = handTrackingEnabled a /\
  lastPinchDistRef (tracker a) = None /\
  lastTwoHandsCenterRef (tracker a) = None /\
  (handTrackingEnabled a = false ->
   currentGesture a = None /\ status (tracker a) = disabled).

(** ** Reading the emissions of a run *)

(** The strength carried by a two-hand gesture. *)
Definition strengthOf (g : option Gesture) : option R :=
  match g with
  | Some (TwoHandPinch s) | Some (TwoHandSpread s) => Some s
  | _ => None
  end.

(** [gesture.delta.x] as the camera mapper reads it, 0 where the callback
    emitted no fist gesture or a fist without delta. *)
Definition deltaX (e : option Emission) : R :=
  match e with
  | Some (Emit (Some (Fist _ (Some delta)))) => x delta
  | _ => 0
  end.

Definition sumR (l : list R) : R := fold_right Rplus 0 l.

(** A hand of 21 landmarks that [isHandFist] accepts. *)
Definition goodFist (h : Hand) : Prop :=
  length h = 21%nat /\ isHandFist h = Normal true.

(** One single-hand frame per hand. *)
Definition singleHandFrames (hands : list Hand) : list (option (list Hand)) :=
  map (fun h => Some [h]) hands.

(** ** Plot data (ScatterPlot3D.jsx, lines 57-69 and 213-257) *)

(** [Math.min(...values)] and [Math.max(...values)] of a non-empty array,
    given as its first element and the rest. *)
Definition spreadMin (v : R) (vs : list R) : R := fold_left Rmin vs v.
Definition spreadMax (v : R) (vs : list R) : R := fold_left Rmax vs v.

(** [normalize(val, min, max)] of [Scene] (lines 232-235). *)
Definition normalize (val min max : R) : R :=
  if Req_EM_T max min then 2.5
  else ((val - min) / (max - min)) * 4.5 + 0.25.

(** [values.map(v => normalize(v, min, max))] with [min] and [max] taken
    over [values] (lines 225-241); mapping the empty array gives the empty
    array. *)
Definition normalizedAxis (values : list R) : list R :=
  match values with
  | [] => []
  | v :: vs =>
      let vMin := spreadMin v vs in
      let vMax := spreadMax v vs in
      map (fun val => normalize val vMin vMax) values
  end.

(** [Math.floor] *)
Definition floor (r : R) : Z := Int_part r.

(** The closure returned by [colorScale] (lines 250-256), as the three
    channel values it prints into ["rgb(r, g, b)"]. *)
Definition colorScale (zMin zMax value : R) : Z * Z * Z :=
  let t := if Req_EM_T zMax zMin then 0.5
           else (value - zMin) / (zMax - zMin) in
  let r := floor (68 + t * (253 - 68)) in
  let g := floor (1 + t * (231 - 1)) in
  let b := floor (84 + t * (37 - 84)) in
  (r, g, b).

(** [shortLabel] of [DataPoint] (line 69); characters stand for UTF-16
    code units, [None] for a missing label. *)
Definition shortLabel (label : option String.string)
  : option String.string :=
  match label with
  | Some l =>
      if (negb (String.eqb l "") && (20 <? String.length l)%nat)%bool
      then Some (String.append (String.substring 0 18 l) "...")
      else label
  | None => None
  end.

(** [topIndices] of [Scene] (lines 217-221).  [{val, idx}] objects are
    pairs; [sort] with the comparator [(a, b) => b.val - a.val] is stable,
    so an element stays in front of later elements of equal value: the
    result is the one an insertion sort from the right gives.  The [Set]
    is given by its elements in insertion order. *)
Definition withIndex (zs : list R) : list (R * nat) :=
  combine zs (seq 0 (length zs)).

Fixpoint insertByVal (a : R * nat) (l : list (R * nat)) : list (R * nat) :=
  match l with
  | [] => [a]
  | b :: rest =>
      if Rle_dec (fst b) (fst a) then a :: l
      else b :: insertByVal a rest
  end.

Definition sortByValDesc (l : list (R * nat)) : list (R * nat) :=
  fold_right insertByVal [] l.

(** Descending by [val]: [a] may stand in front of [b]. *)
Definition byValDesc (a b : R * nat) : Prop := fst b <= fst a.

Definition topIndices (zs : list R) : list nat :=
  map snd (firstn 31 (sortByValDesc (withIndex zs))).

(** The hover animation of [DataPoint] (lines 61-66): three.js
    [Vector3.lerp(v, alpha)] moves each component by [alpha] of the way to
    [v]; [meshMounted] tells whether [meshRef.current] is set. *)
Definition lerp (v target : Vector3.t) (alpha : R) : Vector3.t :=
  Vector3.mk
    (Vector3.x v + (Vector3.x target - Vector3.x v) * alpha)
    (Vector3.y v + (Vector3.y target - Vector3.y v) * alpha)
    (Vector3.z v + (Vector3.z target - Vector3.z v) * alpha).

Definition hoverFrame (meshMounted hovered isHovered : bool)
           (scale : Vector3.t) : Vector3.t :=
  if meshMounted then
    let targetScale := if (hovered || isHovered)%bool then 1.5 else 1 in
    lerp scale (Vector3.mk targetScale targetScale targetScale) 0.1
  else scale.

(** [n] render frames with the hover state unchanged. *)
Fixpoint hoverFrames (n : nat) (hovered isHovered : bool)
         (scale : Vector3.t) : Vector3.t :=
  match n with
  | O => scale
  | S k => hoverFrames k hovered isHovered
                       (hoverFrame true hovered isHovered scale)
  end.

(** * Proofs *)

(** ** Comparisons *)

Lemma Rltb_true_iff (a b : R) : Rltb a b = true <-> a < b.
Proof.
  unfold Rltb. destruct (Rlt_dec a b); split; intros; auto; discriminate.
Qed.

Lemma Rltb_false_iff (a b : R) : Rltb a b = false <-> b <= a.
Proof.
  unfold Rltb. destruct (Rlt_dec a b); split; intros; auto;
    try discriminate; lra.
Qed.

Lemma Rgtb_true_iff (a b : R) : Rgtb a b = true <-> a > b.
Proof. unfold Rgtb. rewrite Rltb_true_iff. lra. Qed.

Lemma Rgtb_false_iff (a b : R) : Rgtb a b = false <-> a <= b.
Proof. unfold Rgtb. rewrite Rltb_false_iff. lra. Qed.

(** Settle every comparison of the goal by linear arithmetic. *)
Ltac settle :=
  repeat match goal with
         | |- context [Rlt_dec ?a ?b] =>
             destruct (Rlt_dec a b); try lra
         | |- context [Rle_dec ?a ?b] =>
             destruct (Rle_dec a b); try lra
         | |- context [Rcase_abs ?a] =>
             destruct (Rcase_abs a); try lra
         | |- context [Req_EM_T ?a ?b] =>
             destruct (Req_EM_T a b); try lra
         end.

(** Unfold the comparison and rounding-free arithmetic helpers, then
    settle the comparisons. *)
Ltac by_cases :=
  unfold Rgtb, Rltb, Rmin, Rmax, Rabs; settle.

(** ** Well-formed hands *)

(** Name the 21 landmarks of a hand of length 21. *)
Ltac explode h H :=
  do 21 (destruct h as [| ? h];
         [ simpl in H; discriminate H
         | simpl in H; apply Nat.succ_inj in H ]);
  destruct h; [ clear H | simpl in H; discriminate H ].

(** Rewrite a square root whose argument is identically zero. *)
Ltac sqrt_of_zero :=
  match goal with
  | |- context [sqrt ?e] =>
      replace e with 0 by (simpl; ring); rewrite sqrt_0
  end.

Lemma planarDistance_same_y (p q : Point) :
  y p = y q -> x q <= x p -> planarDistance p q = x p - x q.
Proof.
  intros Hy Hx. unfold planarDistance. rewrite Hy.
  replace ((x p - x q) ^ 2 + (y q - y q) ^ 2) with ((x p - x q) ^ 2) by ring.
  apply sqrt_pow2. lra.
Qed.

Lemma distance_defined (p q : Point) :
  distance (Some p) (Some q) = Normal (planarDistance p q).
Proof. reflexivity. Qed.

Lemma getPalmCenter_total (h : Hand) :
  length h = 21%nat -> exists p, getPalmCenter h = Normal p.
Proof. intros H. explode h H. eexists. reflexivity. Qed.

Lemma isHandPinched_total (h : Hand) :
  length h = 21%nat -> exists b, isHandPinched h = Normal b.
Proof. intros H. explode h H. eexists. reflexivity. Qed.

Lemma isHandFist_total (h : Hand) :
  length h = 21%nat -> exists b, isHandFist h = Normal b.
Proof.
  intros H. explode h H. unfold isHandFist, curled. simpl.
  repeat match goal with
         | |- context [Rgtb ?a ?b] => destruct (Rgtb a b); simpl
         end; eexists; reflexivity.
Qed.

(** ** Pose classifier *)

(** C7 (as amended): on a hand of 21 landmarks [isHandPinched] returns, and
    returns true exactly when the distance between thumb tip (4) and index
    tip (8) measured in the image plane (x and y only) is below 0.1. *)
Theorem isHandPinched_planar (h : Hand) :
  length h = 21%nat ->
  exists thumbTip indexTip,
    at_index h 4 = Some thumbTip /\
    at_index h 8 = Some indexTip /\
    isHandPinched h = Normal (Rltb (planarDistance thumbTip indexTip) 0.1) /\
    (isHandPinched h = Normal true <->
     planarDistance thumbTip indexTip < 0.1).
Proof.
  intros H. explode h H.
  do 2 eexists. repeat split; try reflexivity.
  - intros E. apply Rltb_true_iff. unfold isHandPinched in E. simpl in E.
    injection E as E. exact E.
  - intros E. unfold isHandPinched. simpl. f_equal.
    apply Rltb_true_iff. exact E.
Qed.

Lemma isHandPinched_planar_witness :
  length (uniformHand (mkLandmark 0 0 0)) = 21%nat /\
  isHandPinched (uniformHand (mkLandmark 0 0 0)) = Normal true.
Proof.
  split; [reflexivity |].
  destruct (isHandPinched_planar (uniformHand (mkLandmark 0 0 0)) eq_refl)
    as (t & i & Ht & Hi & _ & Hiff).
  apply Hiff. simpl in Ht, Hi. injection Ht as <-. injection Hi as <-.
  unfold planarDistance. sqrt_of_zero. lra.
Defined.

(** C7 (as stated) fails: with the two tips aligned in the image and one
    unit apart in depth, the hand counts as pinched although the Euclidean
    distance of the two landmarks is 1. *)
Lemma isHandPinched_ignores_depth :
  at_index depthSplitHand 4 = Some (mkLandmark 0 0 0) /\
  at_index depthSplitHand 8 = Some (mkLandmark 0 0 1) /\
  ~ (isHandPinched depthSplitHand = Normal true <->
     euclideanDistance (mkLandmark 0 0 0) (mkLandmark 0 0 1) < 0.1).
Proof.
  split; [reflexivity | split; [reflexivity |]].
  intros [Hcode _].
  assert (Hp : isHandPinched depthSplitHand = Normal true).
  { unfold isHandPinched. simpl. f_equal. apply Rltb_true_iff.
    sqrt_of_zero. lra. }
  specialize (Hcode Hp). unfold euclideanDistance in Hcode.
  cbn [x y z] in Hcode.
  replace ((0 - 0) ^ 2 + (0 - 0) ^ 2 + (0 - 1) ^ 2) with (1 ^ 2) in Hcode
    by ring.
  rewrite sqrt_pow2 in Hcode; lra.
Qed.

(** ** Gesture detector: one callback, unfolded *)

Ltac run_eff :=
  unfold Eff.bind, Eff.read, Eff.write, Eff.ret, Eff.lift.

(** A frame with at least two hands whose first two are well formed. *)
Lemma onResults_two_hands (t : Tracker) (h1 h2 : Hand) (rest : list Hand)
      (p1 p2 : Point) (b : bool) :
  canvasRef t = true ->
  getPalmCenter h1 = Normal p1 ->
  getPalmCenter h2 = Normal p2 ->
  isHandPinched h1 &&? isHandPinched h2 = Normal b ->
  onResults (Some (h1 :: h2 :: rest)) t =
  (Normal (Emit
     (match b, lastTwoHandsDistRef t with
      | true, Some lastDist =>
          let distDelta := planarDistance p1 p2 - lastDist in
          if Rgtb (Rabs distDelta) 0.008 then
            if Rgtb distDelta 0 then
              Some (TwoHandSpread (Rmin 1 (distDelta * 12)))
            else Some (TwoHandPinch (Rmin 1 (Rabs distDelta * 12)))
          else None
      | _, _ => None
      end)),
   with_lastTwoHandsDistRef (Some (planarDistance p1 p2))
     (with_lastPinchDistRef None
        (with_lastPositionRef None (with_status tracking t)))).
Proof.
  intros Hc E1 E2 Eb.
  unfold onResults, detectGesture, detectTwoHandGesture. run_eff.
  rewrite Hc. cbn [negb]. cbv beta iota. rewrite E1, E2, Eb.
  rewrite distance_defined. destruct b; reflexivity.
Qed.

(** A frame with exactly one well-formed hand. *)
Lemma onResults_one_hand (t : Tracker) (h : Hand) (p : Point) (b : bool) :
  canvasRef t = true ->
  getPalmCenter h = Normal p ->
  isHandFist h = Normal b ->
  onResults (Some [h]) t =
  (Normal (Emit
     (if b then
        Some (Fist p (option_map (pointDiff p) (lastPositionRef t)))
      else None)),
   with_lastPositionRef (if b then Some p else None)
     (with_lastTwoHandsCenterRef None
        (with_lastTwoHandsDistRef None (with_status tracking t)))).
Proof.
  intros Hc E1 Eb.
  unfold onResults, detectGesture, detectSingleHandGesture. run_eff.
  rewrite Hc. cbn [negb]. cbv beta iota. rewrite E1, Eb.
  destruct b; [| reflexivity].
  cbn. destruct (lastPositionRef t); reflexivity.
Qed.

(** A frame without hands: [multiHandLandmarks] undefined or empty. *)
Lemma onResults_no_hand (t : Tracker) (r : option (list Hand)) :
  canvasRef t = true ->
  r = None \/ r = Some [] ->
  onResults r t =
  (Normal (Emit None), with_lastPositionRef None (with_status no_hand t)).
Proof.
  intros Hc [-> | ->]; unfold onResults; run_eff; rewrite Hc; reflexivity.
Qed.

(** While the canvas is not rendered the callback does nothing. *)
Lemma onResults_no_canvas (t : Tracker) (r : option (list Hand)) :
  canvasRef t = false -> onResults r t = (Normal NotCalled, t).
Proof.
  intros Hc. unfold onResults. run_eff. rewrite Hc. reflexivity.
Qed.

Lemma both_pinched (h1 h2 : Hand) :
  isHandPinched h1 = Normal true ->
  isHandPinched h2 = Normal true ->
  isHandPinched h1 &&? isHandPinched h2 = Normal true.
Proof. intros -> ->. reflexivity. Qed.

(** ** Two-hand mode *)

(** C3: on a two-hand frame with both hands pinched and a baseline [prev]
    set, with [delta = dist - prev]: inside the dead zone ([|delta| <=
    0.008], so also at a decrease of exactly 0.008) the callback emits the
    null gesture; above it emits twohand-spread with strength
    [min(1, delta * 12)]; below it emits twohand-pinch with strength
    [min(1, |delta| * 12)], which is 0.108 for a decrease of 0.009. *)
Theorem two_hand_dead_zone (t : Tracker) (h1 h2 : Hand) (rest : list Hand)
        (prev : R) :
  canvasRef t = true ->
  length h1 = 21%nat -> length h2 = 21%nat ->
  isHandPinched h1 = Normal true ->
  isHandPinched h2 = Normal true ->
  lastTwoHandsDistRef t = Some prev ->
  exists (p1 p2 : Point) (g : option Gesture) (t' : Tracker),
    getPalmCenter h1 = Normal p1 /\
    getPalmCenter h2 = Normal p2 /\
    onResults (Some (h1 :: h2 :: rest)) t = (Normal (Emit g), t') /\
    let delta := planarDistance p1 p2 - prev in
    (Rabs delta <= 0.008 -> g = None) /\
    (delta > 0.008 -> g = Some (TwoHandSpread (Rmin 1 (delta * 12)))) /\
    (delta < -0.008 ->
     g = Some (TwoHandPinch (Rmin 1 (Rabs delta * 12)))) /\
    (delta = -0.008 -> g = None) /\
    (delta = -0.009 -> g = Some (TwoHandPinch 0.108)).
Proof.
  intros Hc L1 L2 P1 P2 Hprev.
  destruct (getPalmCenter_total h1 L1) as [p1 E1].
  destruct (getPalmCenter_total h2 L2) as [p2 E2].
  exists p1, p2. do 2 eexists.
  split; [exact E1 | split; [exact E2 | split]].
  - apply (onResults_two_hands t h1 h2 rest p1 p2 true Hc E1 E2
             (both_pinched h1 h2 P1 P2)).
  - rewrite Hprev. cbv zeta.
    set (d := planarDistance p1 p2 - prev).
    repeat split; intros Hd.
    + replace (Rgtb (Rabs d) 0.008) with false; [reflexivity |].
      symmetry. apply Rgtb_false_iff. exact Hd.
    + replace (Rgtb (Rabs d) 0.008) with true.
      * replace (Rgtb d 0) with true; [reflexivity |].
        symmetry. apply Rgtb_true_iff. lra.
      * symmetry. apply Rgtb_true_iff. rewrite Rabs_right; lra.
    + replace (Rgtb (Rabs d) 0.008) with true.
      * replace (Rgtb d 0) with false; [reflexivity |].
        symmetry. apply Rgtb_false_iff. lra.
      * symmetry. apply Rgtb_true_iff. rewrite Rabs_left; lra.
    + replace (Rgtb (Rabs d) 0.008) with false; [reflexivity |].
      symmetry. apply Rgtb_false_iff. rewrite Rabs_left; lra.
    + replace (Rgtb (Rabs d) 0.008) with true.
      * replace (Rgtb d 0) with false.
        -- do 2 f_equal. rewrite Rabs_left by lra. rewrite Hd.
           unfold Rmin. settle.
        -- symmetry. apply Rgtb_false_iff. lra.
      * symmetry. apply Rgtb_true_iff. rewrite Rabs_left; lra.
Qed.

(** ** Facts about the sample hands *)

Lemma getPalmCenter_handWith (base tip : Landmark) :
  getPalmCenter (handWith base tip) = Normal base.
Proof.
  destruct base as [bx by_ bz]. unfold getPalmCenter, palmCoord. cbn.
  f_equal. f_equal; lra.
Qed.

Lemma isHandPinched_handWith (base tip : Landmark) :
  isHandPinched (handWith base tip) = Normal true.
Proof.
  unfold isHandPinched. cbn. f_equal. apply Rltb_true_iff.
  sqrt_of_zero. lra.
Qed.

Lemma isHandFist_fistAt (p : Landmark) : isHandFist (fistAt p) = Normal true.
Proof.
  assert (E : Rgtb (y p + 0.1) (y p) = true) by (apply Rgtb_true_iff; lra).
  unfold isHandFist, curled. cbn. rewrite E. reflexivity.
Qed.

Lemma two_hand_dead_zone_witness :
  exists t',
    onResults (Some [uniformHand (mkLandmark 0.5 0.5 0);
                     uniformHand (mkLandmark 0 0.5 0)])
              (with_lastTwoHandsDistRef (Some 0.509) freshTracker)
    = (Normal (Emit (Some (TwoHandPinch 0.108))), t').
Proof.
  destruct (two_hand_dead_zone
              (with_lastTwoHandsDistRef (Some 0.509) freshTracker)
              (uniformHand (mkLandmark 0.5 0.5 0))
              (uniformHand (mkLandmark 0 0.5 0)) [] 0.509
              eq_refl eq_refl eq_refl
              (isHandPinched_handWith _ _) (isHandPinched_handWith _ _)
              eq_refl)
    as (p1 & p2 & g & t' & E1 & E2 & Er & _ & _ & _ & _ & H9).
  exists t'. rewrite Er.
  unfold uniformHand in E1, E2. rewrite getPalmCenter_handWith in E1, E2.
  injection E1 as <-. injection E2 as <-.
  rewrite H9; [reflexivity |].
  rewrite planarDistance_same_y; cbn [x y]; lra.
Defined.

(** C6: every two-hand frame stores the current inter-palm distance as the
    new baseline, whatever the pinch state; when not both hands are
    pinched the emitted gesture is null, whatever the distance change. *)
Theorem pinch_gating (t : Tracker) (h1 h2 : Hand) (rest : list Hand) :
  canvasRef t = true ->
  length h1 = 21%nat -> length h2 = 21%nat ->
  exists (p1 p2 : Point) (g : option Gesture) (t' : Tracker),
    getPalmCenter h1 = Normal p1 /\
    getPalmCenter h2 = Normal p2 /\
    onResults (Some (h1 :: h2 :: rest)) t = (Normal (Emit g), t') /\
    lastTwoHandsDistRef t' = Some (planarDistance p1 p2) /\
    (isHandPinched h1 = Normal false \/ isHandPinched h2 = Normal false ->
     g = None).
Proof.
  intros Hc L1 L2.
  destruct (getPalmCenter_total h1 L1) as [p1 E1].
  destruct (getPalmCenter_total h2 L2) as [p2 E2].
  destruct (isHandPinched_total h1 L1) as [b1 B1].
  destruct (isHandPinched_total h2 L2) as [b2 B2].
  assert (Eb : isHandPinched h1 &&? isHandPinched h2 = Normal (b1 && b2)).
  { rewrite B1, B2. destruct b1; reflexivity. }
  exists p1, p2. do 2 eexists.
  split; [exact E1 | split; [exact E2 | split; [| split]]].
  - apply (onResults_two_hands t h1 h2 rest p1 p2 _ Hc E1 E2 Eb).
  - reflexivity.
  - intros Hn. rewrite B1, B2 in Hn.
    assert (b1 && b2 = false) as ->; [| reflexivity].
    destruct Hn as [Hn | Hn]; injection Hn as ->;
      [reflexivity | apply andb_false_r].
Qed.

Lemma getPalmCenter_spreadHand (p : Landmark) :
  getPalmCenter (spreadHand p) = Normal p.
Proof.
  destruct p as [px py pz]. unfold getPalmCenter, palmCoord. cbn.
  f_equal. f_equal; lra.
Qed.

Lemma isHandPinched_spreadHand (p : Landmark) :
  isHandPinched (spreadHand p) = Normal false.
Proof.
  unfold isHandPinched. cbn. f_equal. apply Rltb_false_iff.
  match goal with
  | |- context [sqrt ?e] => replace e with (0.2 ^ 2) by (simpl; ring)
  end.
  rewrite sqrt_pow2; lra.
Qed.

Lemma pinch_gating_witness :
  exists g t',
    onResults (Some [spreadHand (mkLandmark 0 0.5 0);
                     uniformHand (mkLandmark 0.5 0.5 0)])
              (with_lastTwoHandsDistRef (Some 5) freshTracker)
    = (Normal (Emit g), t') /\
    g = None /\
    lastTwoHandsDistRef t' =
    Some (planarDistance (mkLandmark 0 0.5 0) (mkLandmark 0.5 0.5 0)).
Proof.
  destruct (pinch_gating
              (with_lastTwoHandsDistRef (Some 5) freshTracker)
              (spreadHand (mkLandmark 0 0.5 0))
              (uniformHand (mkLandmark 0.5 0.5 0)) []
              eq_refl eq_refl eq_refl)
    as (p1 & p2 & g & t' & E1 & E2 & Er & Hbase & Hgate).
  exists g, t'.
  rewrite getPalmCenter_spreadHand in E1. injection E1 as <-.
  unfold uniformHand in E2. rewrite getPalmCenter_handWith in E2.
  injection E2 as <-.
  split; [exact Er | split; [| exact Hbase]].
  apply Hgate. left. apply isHandPinched_spreadHand.
Defined.

(** ** Zero hands *)

(** C2 (as amended): a frame without hands emits the null gesture and
    sets [lastPositionRef] to null; it leaves the two-hand refs as they
    were, so the next frame with two or more hands behaves exactly as if
    the gap had not occurred: a both-pinched frame computes its delta from
    the baseline stored before the gap. *)
Theorem zero_hands_keep_baseline (t : Tracker) (r : option (list Hand)) :
  canvasRef t = true ->
  r = None \/ r = Some [] ->
  exists t',
    onResults r t = (Normal (Emit None), t') /\
    lastPositionRef t' = None /\
    lastTwoHandsDistRef t' = lastTwoHandsDistRef t /\
    lastTwoHandsCenterRef t' = lastTwoHandsCenterRef t /\
    forall (h1 h2 : Hand) (rest : list Hand),
      onResults (Some (h1 :: h2 :: rest)) t' =
      onResults (Some (h1 :: h2 :: rest)) t.
Proof.
  intros Hc Hr. eexists.
  split; [apply (onResults_no_hand t r Hc Hr) |].
  repeat split. intros h1 h2 rest.
  unfold onResults, detectGesture. run_eff. cbn [canvasRef with_status
    with_lastPositionRef]. rewrite Hc. reflexivity.
Qed.

Lemma zero_hands_keep_baseline_witness :
  exists t',
    onResults (Some []) (with_lastTwoHandsDistRef (Some 0.5) freshTracker)
    = (Normal (Emit None), t') /\
    lastTwoHandsDistRef t' = Some 0.5.
Proof.
  destruct (zero_hands_keep_baseline
              (with_lastTwoHandsDistRef (Some 0.5) freshTracker) (Some [])
              eq_refl (or_intror eq_refl))
    as (t' & Er & _ & Hd & _).
  exists t'. split; [exact Er | exact Hd].
Defined.

(** C2 (as stated) fails: two pinched hands 0.5 apart, then a frame
    without hands, then the two pinched hands 1 apart.  The baseline 0.5
    survives the gap and the third frame emits a full-strength spread
    computed from it. *)
Lemma zero_hands_stale_baseline :
  lastTwoHandsDistRef
    (snd (runFrames
            [Some [uniformHand (mkLandmark 0.5 0.5 0);
                   uniformHand (mkLandmark 0 0.5 0)];
             Some []] freshTracker)) = Some 0.5 /\
  fst (runFrames
         [Some [uniformHand (mkLandmark 0.5 0.5 0);
                uniformHand (mkLandmark 0 0.5 0)];
          Some [];
          Some [uniformHand (mkLandmark 1 0.5 0);
                uniformHand (mkLandmark 0 0.5 0)]] freshTracker)
  = [Some (Emit None); Some (Emit None);
     Some (Emit (Some (TwoHandSpread 1)))].
Proof.
  assert (D1 : planarDistance (mkLandmark 0.5 0.5 0) (mkLandmark 0 0.5 0)
               = 0.5)
    by (rewrite planarDistance_same_y; cbn [x y]; lra).
  assert (D2 : planarDistance (mkLandmark 1 0.5 0) (mkLandmark 0 0.5 0) = 1)
    by (rewrite planarDistance_same_y; cbn [x y]; lra).
  cbn [runFrames]. unfold uniformHand.
  rewrite (onResults_two_hands freshTracker _ _ [] _ _ true eq_refl
             (getPalmCenter_handWith _ _) (getPalmCenter_handWith _ _)
             (both_pinched _ _ (isHandPinched_handWith _ _)
                (isHandPinched_handWith _ _))).
  rewrite D1.
  rewrite onResults_no_hand; [| reflexivity | right; reflexivity].
  split; [reflexivity |].
  rewrite (onResults_two_hands _ _ _ [] (mkLandmark 1 0.5 0)
             (mkLandmark 0 0.5 0) true);
    [| reflexivity | apply getPalmCenter_handWith
     | apply getPalmCenter_handWith
     | apply both_pinched; apply isHandPinched_handWith ].
  rewrite D2. cbn [fst snd lastTwoHandsDistRef with_lastTwoHandsDistRef
    with_lastPinchDistRef with_lastPositionRef with_status freshTracker
    enabledEffect with_canvasRef mountTracker].
  assert (E1 : Rgtb (Rabs (1 - 0.5)) 0.008 = true)
    by (apply Rgtb_true_iff; rewrite Rabs_right; lra).
  assert (E2 : Rgtb (1 - 0.5) 0 = true) by (apply Rgtb_true_iff; lra).
  assert (E3 : Rmin 1 ((1 - 0.5) * 12) = 1) by (unfold Rmin; settle).
  cbv zeta. rewrite E1, E2, E3. reflexivity.
Qed.

(** ** Single-hand mode *)

(** C4: on a single-hand frame with a fist the callback emits a fist
    gesture whose position is the palm center; it carries
    [delta = position - lastPositionRef] (per coordinate) when the ref was
    set and no delta when it was null, and stores the position.  With an
    open hand it emits the null gesture and nulls the ref, so the next
    fist frame carries no delta wherever the palm is by then. *)
Theorem single_hand_fist (t : Tracker) (h : Hand) :
  canvasRef t = true ->
  length h = 21%nat ->
  exists (pos : Point) (fist : bool) (g : option Gesture) (t' : Tracker),
    getPalmCenter h = Normal pos /\
    isHandFist h = Normal fist /\
    onResults (Some [h]) t = (Normal (Emit g), t') /\
    (fist = true ->
     (forall last, lastPositionRef t = Some last ->
        g = Some (Fist pos (Some (mkLandmark (x pos - x last)
                                             (y pos - y last)
                                             (z pos - z last))))) /\
     (lastPositionRef t = None -> g = Some (Fist pos None)) /\
     lastPositionRef t' = Some pos) /\
    (fist = false ->
     g = None /\
     lastPositionRef t' = None /\
     forall h', length h' = 21%nat -> isHandFist h' = Normal true ->
       exists pos' t'',
         getPalmCenter h' = Normal pos' /\
         onResults (Some [h']) t' =
         (Normal (Emit (Some (Fist pos' None))), t'')).
Proof.
  intros Hc L.
  destruct (getPalmCenter_total h L) as [pos E].
  destruct (isHandFist_total h L) as [fist F].
  exists pos, fist. do 2 eexists.
  split; [exact E | split; [exact F | split]].
  - apply (onResults_one_hand t h pos fist Hc E F).
  - split; intros ->.
    + split; [| split; [| reflexivity]].
      * intros last ->. reflexivity.
      * intros ->. reflexivity.
    + split; [reflexivity | split; [reflexivity |]].
      intros h' L' F'.
      destruct (getPalmCenter_total h' L') as [pos' E'].
      exists pos'. eexists. split; [exact E' |].
      rewrite (onResults_one_hand _ h' pos' true); try assumption; reflexivity.
Qed.

Lemma single_hand_fist_witness :
  exists t',
    onResults (Some [fistAt (mkLandmark 0.5 0.5 0)])
              (with_lastPositionRef (Some (mkLandmark 0.4 0.5 0)) freshTracker)
    = (Normal (Emit (Some (Fist (mkLandmark 0.5 0.5 0)
                                (Some (mkLandmark (0.5 - 0.4) (0.5 - 0.5)
                                                  (0 - 0)))))), t').
Proof.
  destruct (single_hand_fist
              (with_lastPositionRef (Some (mkLandmark 0.4 0.5 0)) freshTracker)
              (fistAt (mkLandmark 0.5 0.5 0)) eq_refl eq_refl)
    as (pos & fist & g & t' & E & F & Er & Hfist & _).
  unfold fistAt in E. rewrite getPalmCenter_handWith in E.
  injection E as <-.
  rewrite isHandFist_fistAt in F. injection F as <-.
  destruct (Hfist eq_refl) as (Hd & _ & _).
  exists t'. rewrite Er. rewrite (Hd _ eq_refl). reflexivity.
Defined.

(** ** Mode isolation *)

Ltac split_completions :=
  repeat match goal with
         | |- context [match ?c with Normal _ => _ | TypeError => _ end] =>
             destruct c
         | |- context [if ?b then _ else _] => destruct b
         end.

(** Whatever the refs held, and whether or not the callback throws, a
    processed callback leaves the tracker isolated. *)
Lemma onResults_isolated (t : Tracker) (r : option (list Hand)) :
  canvasRef t = true -> isolated (snd (onResults r t)).
Proof.
  intros Hc. unfold onResults, detectGesture. run_eff. rewrite Hc.
  cbn [negb]. cbv beta iota.
  destruct r as [[| h1 [| h2 rest]] |].
  - left. reflexivity.
  - right. unfold detectSingleHandGesture. run_eff.
    split_completions; split; reflexivity.
  - left. unfold detectTwoHandGesture. run_eff.
    split_completions; reflexivity.
  - left. reflexivity.
Qed.

Lemma visionCallback_tracker (r : option (list Hand)) (a : App) :
  tracker (visionCallback r a) = snd (onResults r (tracker a)).
Proof.
  unfold visionCallback.
  destruct (onResults r (tracker a)) as [[[| g] |] t']; reflexivity.
Qed.

Lemma handle_isolated (a : App) (e : Event) :
  isolated (tracker a) -> isolated (tracker (handle a e)).
Proof.
  intros Ha. destruct e as [| r |]; cbn [handle].
  - exact Ha.
  - rewrite visionCallback_tracker.
    destruct (canvasRef (tracker a)) eqn:Hc.
    + apply onResults_isolated. exact Hc.
    + rewrite onResults_no_canvas by exact Hc. exact Ha.
  - left. reflexivity.
Qed.

Lemma fold_handle_isolated (events : list Event) (a : App) :
  isolated (tracker a) -> isolated (tracker (fold_left handle events a)).
Proof.
  revert a. induction events as [| e events IH]; intros a Ha.
  - exact Ha.
  - cbn [fold_left]. apply IH. apply handle_isolated. exact Ha.
Qed.

(** C9: in every state the app reaches, and after every processed
    callback whatever the refs held before it, at most one of the
    single-hand ref and the two-hand refs is set.  [detectGesture] nulls
    [lastPositionRef] on a frame with two or more hands and both two-hand
    refs on a frame with one hand, and what a callback emits does not
    depend on the other mode's refs: a single-hand frame emits the same
    whatever the two-hand refs hold, a two-hand frame the same whatever
    [lastPositionRef] holds. *)
Theorem mode_isolation :
  (forall events : list Event, isolated (tracker (runApp events))) /\
  (forall (t : Tracker) (r : option (list Hand)),
      canvasRef t = true -> isolated (snd (onResults r t))) /\
  (forall (t : Tracker) (h1 h2 : Hand) (rest : list Hand),
      lastPositionRef (snd (detectGesture (Some (h1 :: h2 :: rest)) t))
      = None) /\
  (forall (t : Tracker) (h : Hand),
      lastTwoHandsDistRef (snd (detectGesture (Some [h]) t)) = None /\
      lastTwoHandsCenterRef (snd (detectGesture (Some [h]) t)) = None) /\
  (forall (t : Tracker) (h : Hand) (d : option R) (c : option Point),
      fst (onResults (Some [h])
             (with_lastTwoHandsDistRef d (with_lastTwoHandsCenterRef c t)))
      = fst (onResults (Some [h]) t)) /\
  (forall (t : Tracker) (h1 h2 : Hand) (rest : list Hand) (p : option Point),
      fst (onResults (Some (h1 :: h2 :: rest)) (with_lastPositionRef p t))
      = fst (onResults (Some (h1 :: h2 :: rest)) t)).
Proof.
  split; [| split; [| split; [| split; [| split]]]].
  - intros events. apply fold_handle_isolated. left. reflexivity.
  - apply onResults_isolated.
  - intros t h1 h2 rest.
    unfold detectGesture, detectTwoHandGesture. run_eff.
    split_completions; reflexivity.
  - intros t h.
    unfold detectGesture, detectSingleHandGesture. run_eff.
    split_completions; split; reflexivity.
  - intros t h d c.
    unfold onResults, detectGesture, detectSingleHandGesture. run_eff.
    cbn [canvasRef with_lastTwoHandsDistRef with_lastTwoHandsCenterRef].
    split_completions; reflexivity.
  - intros t h1 h2 rest p.
    unfold onResults, detectGesture, detectTwoHandGesture. run_eff.
    cbn [canvasRef with_lastPositionRef].
    split_completions; reflexivity.
Qed.

Lemma mode_isolation_witness :
  isolated
    (snd (onResults (Some [fistAt (mkLandmark 0.5 0.5 0)])
            (with_lastTwoHandsDistRef (Some 0.5)
               (with_lastPositionRef (Some (mkLandmark 0.4 0.5 0))
                                     freshTracker)))).
Proof.
  destruct mode_isolation as (_ & Hstep & _).
  apply Hstep. reflexivity.
Defined.

(** ** Disabling and re-enabling *)

Lemma visionCallback_one_hand (a : App) (h : Hand) (p : Point) :
  canvasRef (tracker a) = true ->
  getPalmCenter h = Normal p ->
  isHandFist h = Normal true ->
  visionCallback (Some [h]) a =
  mkApp (with_lastPositionRef (Some p)
           (with_lastTwoHandsCenterRef None
              (with_lastTwoHandsDistRef None
                 (with_status tracking (tracker a)))))
        (handTrackingEnabled a)
        (Some (Fist p (option_map (pointDiff p)
                                  (lastPositionRef (tracker a))))).
Proof.
  intros Hc E F. unfold visionCallback.
  rewrite (onResults_one_hand (tracker a) h p true Hc E F). reflexivity.
Qed.

(** C1 (as amended): switching hand tracking off nulls the current
    gesture and makes the tracker ignore vision callbacks, but writes none
    of the detector's refs; after switching it on again the refs are what
    they were before, so the first fist frame carries
    [delta = position - lastPositionRef] when [lastPositionRef] was set
    before the switch-off and no delta only when it was null. *)
Theorem disable_keeps_refs (a : App) (h : Hand) :
  handTrackingEnabled a = true ->
  length h = 21%nat ->
  isHandFist h = Normal true ->
  let off := toggleHandTracking a in
  let on := toggleHandTracking off in
  handTrackingEnabled off = false /\
  currentGesture off = None /\
  (forall r, visionCallback r off = off) /\
  handTrackingEnabled on = true /\
  lastPositionRef (tracker on) = lastPositionRef (tracker a) /\
  lastTwoHandsDistRef (tracker on) = lastTwoHandsDistRef (tracker a) /\
  lastTwoHandsCenterRef (tracker on) = lastTwoHandsCenterRef (tracker a) /\
  exists pos,
    getPalmCenter h = Normal pos /\
    (forall last, lastPositionRef (tracker a) = Some last ->
       currentGesture (visionCallback (Some [h]) on)
       = Some (Fist pos (Some (mkLandmark (x pos - x last) (y pos - y last)
                                          (z pos - z last))))) /\
    (lastPositionRef (tracker a) = None ->
       currentGesture (visionCallback (Some [h]) on) = Some (Fist pos None)).
Proof.
  intros He L F. cbv zeta.
  unfold toggleHandTracking, setHandTrackingEnabled. cbn [handTrackingEnabled].
  rewrite He. cbn [negb handTrackingEnabled tracker currentGesture].
  split; [reflexivity |]. split; [reflexivity |].
  split.
  { intros r. unfold visionCallback. cbn [tracker].
    rewrite onResults_no_canvas by reflexivity. reflexivity. }
  do 4 (split; [reflexivity |]).
  destruct (getPalmCenter_total h L) as [pos E].
  exists pos. split; [exact E |].
  rewrite (visionCallback_one_hand _ h pos); [| reflexivity | exact E | exact F].
  cbn [currentGesture tracker enabledEffect with_canvasRef with_status
       lastPositionRef].
  split.
  - intros last ->. reflexivity.
  - intros ->. reflexivity.
Qed.

Lemma disable_keeps_refs_witness :
  currentGesture
    (visionCallback (Some [fistAt (mkLandmark 0.7 0.5 0)])
       (toggleHandTracking
          (toggleHandTracking
             (mkApp (with_lastPositionRef (Some (mkLandmark 0.2 0.5 0))
                                          freshTracker)
                    true None))))
  = Some (Fist (mkLandmark 0.7 0.5 0)
               (Some (mkLandmark (0.7 - 0.2) (0.5 - 0.5) (0 - 0)))).
Proof.
  destruct (disable_keeps_refs
              (mkApp (with_lastPositionRef (Some (mkLandmark 0.2 0.5 0))
                                           freshTracker)
                     true None)
              (fistAt (mkLandmark 0.7 0.5 0))
              eq_refl eq_refl (isHandFist_fistAt _))
    as (_ & _ & _ & _ & _ & _ & _ & pos & E & Hset & _).
  unfold fistAt in E. rewrite getPalmCenter_handWith in E.
  injection E as <-.
  exact (Hset _ eq_refl).
Defined.

(** C1 (as stated) fails.  From the initial state: switch tracking on, a
    fist at x = 0.2, switch off, switch on, a fist at x = 0.7.  The palm
    stored before the switch-off is still there after it, and the first
    fist frame after the switch-on carries the delta 0.7 - 0.2. *)
Lemma disable_leaves_residual_delta :
  lastPositionRef
    (tracker (runApp [Toggle;
                      Vision (Some [fistAt (mkLandmark 0.2 0.5 0)]);
                      Toggle]))
  = Some (mkLandmark 0.2 0.5 0) /\
  currentGesture
    (runApp [Toggle;
             Vision (Some [fistAt (mkLandmark 0.2 0.5 0)]);
             Toggle;
             Toggle;
             Vision (Some [fistAt (mkLandmark 0.7 0.5 0)])])
  = Some (Fist (mkLandmark 0.7 0.5 0)
               (Some (mkLandmark (0.7 - 0.2) (0.5 - 0.5) (0 - 0)))).
Proof.
  unfold runApp. cbn [fold_left handle].
  unfold fistAt.
  rewrite (visionCallback_one_hand (toggleHandTracking enterFullscreen)
             _ (mkLandmark 0.2 0.5 0) eq_refl
             (getPalmCenter_handWith _ _) (isHandFist_fistAt _)).
  split; [reflexivity |].
  rewrite (visionCallback_one_hand _ _ (mkLandmark 0.7 0.5 0));
    [ reflexivity | reflexivity | apply getPalmCenter_handWith
    | apply (isHandFist_fistAt (mkLandmark 0.7 0.5 0)) ].
Qed.

(** ** Camera position arithmetic *)

Lemma sum_squares_nonneg (v : Vector3.t) :
  0 <= Vector3.x v * Vector3.x v + Vector3.y v * Vector3.y v
       + Vector3.z v * Vector3.z v.
Proof. nra. Qed.

Lemma length_nonneg (v : Vector3.t) : 0 <= Vector3.length v.
Proof. apply sqrt_pos. Qed.

Lemma length_multiplyScalar (v : Vector3.t) (s : R) :
  0 <= s ->
  Vector3.length (Vector3.multiplyScalar v s) = Vector3.length v * s.
Proof.
  intros Hs. unfold Vector3.length, Vector3.multiplyScalar.
  cbn [Vector3.x Vector3.y Vector3.z].
  replace (Vector3.x v * s * (Vector3.x v * s)
           + Vector3.y v * s * (Vector3.y v * s)
           + Vector3.z v * s * (Vector3.z v * s))
    with ((Vector3.x v * Vector3.x v + Vector3.y v * Vector3.y v
           + Vector3.z v * Vector3.z v) * (s * s)) by ring.
  rewrite sqrt_mult; [| apply sum_squares_nonneg | nra].
  rewrite (sqrt_square s Hs). reflexivity.
Qed.

Lemma length_zero_inv (v : Vector3.t) :
  Vector3.length v = 0 -> v = Vector3.mk 0 0 0.
Proof.
  intros H. apply sqrt_eq_0 in H; [| apply sum_squares_nonneg].
  destruct v as [a b c]. cbn [Vector3.x Vector3.y Vector3.z] in H.
  assert (a = 0) by nra. assert (b = 0) by nra. assert (c = 0) by nra.
  subst. reflexivity.
Qed.

Lemma multiplyScalar_compose (v : Vector3.t) (s u : R) :
  Vector3.multiplyScalar (Vector3.multiplyScalar v s) u
  = Vector3.multiplyScalar v (s * u).
Proof.
  unfold Vector3.multiplyScalar. cbn [Vector3.x Vector3.y Vector3.z].
  f_equal; ring.
Qed.

Lemma normalize_nonzero (v : Vector3.t) :
  Vector3.length v <> 0 ->
  Vector3.normalize v = Vector3.multiplyScalar v (1 / Vector3.length v).
Proof.
  intros H. unfold Vector3.normalize, Vector3.divideScalar.
  destruct (Req_EM_T (Vector3.length v) 0); [contradiction | reflexivity].
Qed.

Lemma normalize_zero :
  Vector3.normalize (Vector3.mk 0 0 0) = Vector3.mk 0 0 0.
Proof.
  unfold Vector3.normalize, Vector3.divideScalar, Vector3.multiplyScalar.
  cbn [Vector3.x Vector3.y Vector3.z]. f_equal; ring.
Qed.

(** Normalising and rescaling multiplies the position by a positive
    factor. *)
Lemma rescale_factor (v : Vector3.t) (d : R) :
  0 < d ->
  exists k, 0 < k /\
    Vector3.multiplyScalar (Vector3.normalize v) d
    = Vector3.multiplyScalar v k.
Proof.
  intros Hd. destruct (Req_EM_T (Vector3.length v) 0) as [Hz | Hnz].
  - exists d. split; [exact Hd |].
    rewrite (length_zero_inv v Hz). rewrite normalize_zero. reflexivity.
  - exists (1 / Vector3.length v * d). split.
    + pose proof (length_nonneg v).
      apply Rmult_lt_0_compat; [| exact Hd].
      apply Rdiv_lt_0_compat; lra.
    + rewrite (normalize_nonzero v Hnz). apply multiplyScalar_compose.
Qed.

Lemma length_rescaled (v : Vector3.t) (d : R) :
  Vector3.length v <> 0 -> 0 <= d ->
  Vector3.length (Vector3.multiplyScalar (Vector3.normalize v) d) = d.
Proof.
  intros Hnz Hd. rewrite (normalize_nonzero v Hnz).
  rewrite multiplyScalar_compose.
  rewrite length_multiplyScalar.
  - field. exact Hnz.
  - pose proof (length_nonneg v).
    apply Rmult_le_pos; [| exact Hd].
    apply Rlt_le. apply Rdiv_lt_0_compat; lra.
Qed.

Lemma normalize_scaled (v : Vector3.t) (k : R) :
  0 < k ->
  Vector3.normalize (Vector3.multiplyScalar v k) = Vector3.normalize v.
Proof.
  intros Hk. destruct (Req_EM_T (Vector3.length v) 0) as [Hz | Hnz].
  - rewrite (length_zero_inv v Hz).
    unfold Vector3.multiplyScalar. cbn [Vector3.x Vector3.y Vector3.z].
    f_equal. f_equal; ring.
  - assert (Hl : Vector3.length (Vector3.multiplyScalar v k)
                 = Vector3.length v * k)
      by (apply length_multiplyScalar; lra).
    rewrite (normalize_nonzero v Hnz).
    rewrite normalize_nonzero by (rewrite Hl; nra).
    rewrite Hl, multiplyScalar_compose. unfold Vector3.multiplyScalar.
    f_equal; field; split; lra.
Qed.

Lemma atan2_scaled (b a k : R) :
  0 < k -> atan2 (b * k) (a * k) = atan2 b a.
Proof.
  intros Hk. unfold atan2.
  assert (Hq : a <> 0 -> b * k / (a * k) = b / a)
    by (intros; field; split; lra).
  destruct (Rlt_dec 0 (a * k)), (Rlt_dec 0 a); try nra.
  - rewrite Hq by lra. reflexivity.
  - destruct (Rlt_dec (a * k) 0), (Rlt_dec a 0); try nra.
    + rewrite Hq by lra.
      destruct (Rlt_dec (b * k) 0), (Rlt_dec b 0); try nra; reflexivity.
    + destruct (Rlt_dec 0 (b * k)), (Rlt_dec 0 b); try nra; try reflexivity.
      destruct (Rlt_dec (b * k) 0), (Rlt_dec b 0); try nra; reflexivity.
Qed.

Lemma sqrt_between (lo hi s : R) :
  0 <= lo -> 0 <= hi -> lo * lo <= s <= hi * hi -> lo <= sqrt s <= hi.
Proof.
  intros Hlo Hhi [H1 H2]. split.
  - rewrite <- (sqrt_square lo Hlo). apply sqrt_le_1_alt. exact H1.
  - rewrite <- (sqrt_square hi Hhi). apply sqrt_le_1_alt. exact H2.
Qed.

Lemma initialRig_distance : 3 <= cameraDistance initialRig <= 20.
Proof.
  unfold cameraDistance, initialRig, Vector3.length.
  cbn [position Vector3.x Vector3.y Vector3.z].
  apply sqrt_between; lra.
Qed.

(** ** Camera mapper *)

Section CameraMapper.

Context {K : Type} {OC : OrbitControls K}.

Lemma clamp_bounds (v : R) : 3 <= Rmax 3 (Rmin 20 v) <= 20.
Proof. unfold Rmax, Rmin. settle. Qed.

Lemma rescale_distance (rig : Rig K) (d : R) :
  cameraDistance rig <> 0 -> 0 <= d -> cameraDistance (rescale d rig) = d.
Proof.
  intros Hnz Hd. unfold cameraDistance, rescale. cbn [position].
  apply length_rescaled; assumption.
Qed.

Lemma zoom_distance (rig : Rig K) (g : Gesture) :
  cameraDistance rig <> 0 ->
  cameraDistance (applyGesture g rig) =
  match g with
  | TwoHandPinch strength =>
      Rmax 3 (Rmin 20 (cameraDistance rig + strength * 0.5))
  | TwoHandSpread strength =>
      Rmax 3 (Rmin 20 (cameraDistance rig - strength * 0.5))
  | Fist _ _ => cameraDistance (applyGesture g rig)
  end.
Proof.
  intros Hnz. destruct g as [p d | s | s]; [reflexivity | |];
    cbn [applyGesture]; cbv zeta;
    (apply rescale_distance; [exact Hnz |]);
    match goal with
    | |- 0 <= Rmax 3 (Rmin 20 ?v) => pose proof (clamp_bounds v); lra
    end.
Qed.

Lemma forallb_firstn {A : Type} (f : A -> bool) (l : list A) (n : nat) :
  forallb f l = true -> forallb f (firstn n l) = true.
Proof.
  revert n. induction l as [| a l IH]; intros [| n] H; try reflexivity.
  cbn in H |- *. apply andb_true_iff in H as [Ha Hl].
  rewrite Ha. cbn. apply IH. exact Hl.
Qed.

Lemma applyGesture_in_range (rig : Rig K) (g : Gesture) :
  isZoom g = true ->
  3 <= cameraDistance rig <= 20 ->
  3 <= cameraDistance (applyGesture g rig) <= 20.
Proof.
  intros Hz Hr. rewrite zoom_distance by lra.
  destruct g as [p d | s | s]; [discriminate Hz | |]; apply clamp_bounds.
Qed.

Lemma applied_in_range (gestures : list Gesture) (rig : Rig K) :
  forallb isZoom gestures = true ->
  3 <= cameraDistance rig <= 20 ->
  3 <= cameraDistance (fold_left (fun r g => applyGesture g r) gestures rig)
  <= 20.
Proof.
  revert rig. induction gestures as [| g gestures IH]; intros rig Hz Hr.
  - exact Hr.
  - cbn in Hz. apply andb_true_iff in Hz as [Hg Hz].
    cbn [fold_left]. apply IH; [exact Hz |].
    apply applyGesture_in_range; assumption.
Qed.

Section BoundedController.

(** What [minDistance={3}] and [maxDistance={20}] (lines 47-48) ask of
    the controller: its pass keeps a distance that is in range. *)
Hypothesis update_in_range :
  forall rig : Rig K,
    minDistance <= cameraDistance rig <= maxDistance ->
    minDistance <= cameraDistance (update rig) <= maxDistance.

Lemma tick_in_range (rig : Rig K) (g : Gesture) :
  isZoom g = true ->
  3 <= cameraDistance rig <= 20 ->
  3 <= cameraDistance (useFrame true true (Some g) rig) <= 20.
Proof.
  intros Hz Hr. cbn [useFrame negb].
  apply update_in_range. unfold minDistance, maxDistance.
  apply applyGesture_in_range; assumption.
Qed.

Lemma runTicks_in_range (gestures : list Gesture) (rig : Rig K) :
  forallb isZoom gestures = true ->
  3 <= cameraDistance rig <= 20 ->
  3 <= cameraDistance (runTicks gestures rig) <= 20.
Proof.
  revert rig. induction gestures as [| g gestures IH]; intros rig Hz Hr.
  - exact Hr.
  - cbn in Hz. apply andb_true_iff in Hz as [Hg Hz].
    unfold runTicks. cbn [fold_left]. apply IH; [exact Hz |].
    apply tick_in_range; assumption.
Qed.

(** C5: a twohand-pinch step sets the camera distance to
    [max(3, min(20, distance + strength * 0.5))], a twohand-spread
    step to [max(3, min(20, distance - strength * 0.5))]; starting in
    range, the distance is within [3, 20] after every tick of every
    sequence of these gestures, whatever the strengths, and likewise
    after every gesture application taken without the controller's
    pass. *)
Theorem zoom_clamp :
  (forall (rig : Rig K) (strength : R),
      cameraDistance rig <> 0 ->
      cameraDistance (applyGesture (TwoHandPinch strength) rig)
      = Rmax 3 (Rmin 20 (cameraDistance rig + strength * 0.5)) /\
      cameraDistance (applyGesture (TwoHandSpread strength) rig)
      = Rmax 3 (Rmin 20 (cameraDistance rig - strength * 0.5))) /\
  (forall (gestures : list Gesture) (rig : Rig K),
      forallb isZoom gestures = true ->
      3 <= cameraDistance rig <= 20 ->
      forall n : nat,
        3 <= cameraDistance (runTicks (firstn n gestures) rig) <= 20) /\
  (forall (gestures : list Gesture) (rig : Rig K),
      forallb isZoom gestures = true ->
      3 <= cameraDistance rig <= 20 ->
      forall n : nat,
        3 <= cameraDistance
               (fold_left (fun r g => applyGesture g r) (firstn n gestures)
                          rig) <= 20).
Proof.
  split; [| split].
  - intros rig strength Hnz. split.
    + apply (zoom_distance rig (TwoHandPinch strength) Hnz).
    + apply (zoom_distance rig (TwoHandSpread strength) Hnz).
  - intros gestures rig Hz Hr n.
    apply runTicks_in_range; [| exact Hr].
    apply forallb_firstn. exact Hz.
  - intros gestures rig Hz Hr n.
    apply applied_in_range; [| exact Hr].
    apply forallb_firstn. exact Hz.
Qed.

End BoundedController.

(** C8: a fist gesture with a delta makes the tick call
    [setAzimuthalAngle(getAzimuthalAngle() - delta.x * 15)], so a
    controller that reports the angle it was given reports that value;
    a fist without delta and the null gesture change nothing before the
    controller's own [update] pass, which runs on every tick. *)
Theorem fist_rotates (rig : Rig K) (pos delta : Point) :
  applyGesture (Fist pos (Some delta)) rig
  = setAzimuthalAngle (getAzimuthalAngle rig - x delta * 15) rig /\
  useFrame true true (Some (Fist pos (Some delta))) rig
  = update (setAzimuthalAngle (getAzimuthalAngle rig - x delta * 15) rig) /\
  ((forall (a : R) (r : Rig K), getAzimuthalAngle (setAzimuthalAngle a r) = a)
   -> getAzimuthalAngle (applyGesture (Fist pos (Some delta)) rig)
      = getAzimuthalAngle rig - x delta * 15) /\
  applyGesture (Fist pos None) rig = rig /\
  useFrame true true (Some (Fist pos None)) rig = update rig /\
  (forall enabled : bool, useFrame true enabled None rig = update rig).
Proof.
  repeat split.
  - intros Hlaw. cbn [applyGesture]. cbv zeta. unfold rotateSensitivity.
    apply Hlaw.
  - intros [|]; reflexivity.
Qed.

(** C10: a zoom step leaves the controller untouched and multiplies the
    camera position by a positive factor, so the direction of the
    position (its normalisation) and its azimuth are unchanged; for a
    camera away from the target the new length is the clamped
    distance. *)
Theorem zoom_keeps_direction (rig : Rig K) (g : Gesture) :
  isZoom g = true ->
  controls (applyGesture g rig) = controls rig /\
  (exists k : R,
      0 < k /\
      position (applyGesture g rig)
      = Vector3.multiplyScalar (position rig) k) /\
  Vector3.normalize (position (applyGesture g rig))
  = Vector3.normalize (position rig) /\
  azimuthOf (position (applyGesture g rig)) = azimuthOf (position rig) /\
  (cameraDistance rig <> 0 ->
   3 <= cameraDistance (applyGesture g rig) <= 20).
Proof.
  intros Hz.
  assert (Hk : exists k : R,
             0 < k /\
             position (applyGesture g rig)
             = Vector3.multiplyScalar (position rig) k).
  { destruct g as [p d | s | s]; [discriminate Hz | |];
      cbn [applyGesture rescale position]; cbv zeta;
      apply rescale_factor;
      match goal with
      | |- 0 < Rmax 3 (Rmin 20 ?v) => pose proof (clamp_bounds v); lra
      end. }
  split; [| split; [exact Hk | split; [| split]]].
  - destruct g as [p d | s | s]; [discriminate Hz | |]; reflexivity.
  - destruct Hk as (k & Hpos & ->). apply normalize_scaled. exact Hpos.
  - destruct Hk as (k & Hpos & ->). unfold azimuthOf, Vector3.multiplyScalar.
    cbn [Vector3.x Vector3.z]. apply atan2_scaled. exact Hpos.
  - intros Hnz. rewrite zoom_distance by exact Hnz.
    destruct g as [p d | s | s]; [discriminate Hz | |]; apply clamp_bounds.
Qed.

End CameraMapper.

(** ** The mapper on the undamped controller *)

Lemma directControls_in_range (rig : Rig R) :
  minDistance <= cameraDistance rig <= maxDistance ->
  minDistance <= cameraDistance (update rig) <= maxDistance.
Proof. intros H. exact H. Qed.

Lemma zoom_clamp_witness :
  3 <= cameraDistance
         (runTicks [TwoHandPinch 1; TwoHandSpread 0.3] initialRig) <= 20.
Proof.
  destruct (zoom_clamp directControls_in_range) as (_ & Hseq & _).
  exact (Hseq [TwoHandPinch 1; TwoHandSpread 0.3] initialRig eq_refl
              initialRig_distance 2%nat).
Defined.

Lemma fist_rotates_witness :
  getAzimuthalAngle
    (applyGesture (Fist (mkLandmark 0.5 0.5 0) (Some (mkLandmark 0.1 0 0)))
                  initialRig)
  = getAzimuthalAngle initialRig - 0.1 * 15.
Proof.
  destruct (fist_rotates initialRig (mkLandmark 0.5 0.5 0)
                         (mkLandmark 0.1 0 0))
    as (_ & _ & Hlaw & _).
  apply Hlaw. intros a r. reflexivity.
Defined.

Lemma zoom_keeps_direction_witness :
  azimuthOf (position (applyGesture (TwoHandPinch 1) initialRig))
  = azimuthOf (position initialRig).
Proof.
  destruct (zoom_keeps_direction initialRig (TwoHandPinch 1) eq_refl)
    as (_ & _ & _ & Haz & _).
  exact Haz.
Defined.

(** * Further properties of the code *)

(** ** Pose classifier *)

Lemma Rgtb_shift (a b c : R) : Rgtb (a + c) (b + c) = Rgtb a b.
Proof.
  destruct (Rgtb a b) eqn:E.
  - apply Rgtb_true_iff in E. apply Rgtb_true_iff. lra.
  - apply Rgtb_false_iff in E. apply Rgtb_false_iff. lra.
Qed.

(** X1: on a hand of 21 landmarks [isHandFist] returns true exactly when
    each of the four finger tips (8, 12, 16, 20) has a strictly larger y
    than its joint (5, 9, 13, 17); a tip level with its joint is not
    curled.  Nothing else is read: hands that agree on these eight y
    values, whatever their thumbs, x and z, classify alike. *)
Theorem isHandFist_tips_below_joints (h : Hand) :
  length h = 21%nat ->
  (isHandFist h = Normal true <->
   forall tip joint, In (tip, joint) fingerJoints ->
                     landmarkY h tip > landmarkY h joint) /\
  (isHandFist h = Normal false <->
   exists tip joint, In (tip, joint) fingerJoints /\
                     landmarkY h tip <= landmarkY h joint) /\
  (forall h' : Hand,
      length h' = 21%nat ->
      (forall i, In i [5; 8; 9; 12; 13; 16; 17; 20]%nat ->
                 landmarkY h i = landmarkY h' i) ->
      isHandFist h = isHandFist h').
Proof.
  intros L.
  assert (Hform : isHandFist h =
                  Normal (Rgtb (landmarkY h 8) (landmarkY h 5)
                          && Rgtb (landmarkY h 12) (landmarkY h 9)
                          && Rgtb (landmarkY h 16) (landmarkY h 13)
                          && Rgtb (landmarkY h 20) (landmarkY h 17))%bool).
  { explode h L. unfold isHandFist, curled, landmarkY. cbn.
    repeat match goal with
           | |- context [Rgtb ?a ?b] => destruct (Rgtb a b); cbn
           end; reflexivity. }
  split; [| split].
  - rewrite Hform. split.
    + intros E. injection E as E.
      repeat (apply andb_true_iff in E as [E ?]).
      intros tip joint Hin. cbn in Hin.
      repeat (destruct Hin as [Hin | Hin];
              [injection Hin as <- <-; apply Rgtb_true_iff; assumption |]).
      contradiction.
    + intros H. f_equal.
      repeat (apply andb_true_iff; split);
        apply Rgtb_true_iff; apply H; cbn; tauto.
  - rewrite Hform. split.
    + intros E. injection E as E.
      repeat (apply andb_false_iff in E as [E | E]);
        apply Rgtb_false_iff in E;
        do 2 eexists; (split; [| exact E]); cbn; tauto.
    + intros (tip & joint & Hin & Hle). f_equal. cbn in Hin.
      repeat (destruct Hin as [Hin | Hin];
              [injection Hin as <- <-;
               apply Rgtb_false_iff in Hle; rewrite Hle;
               rewrite ?andb_false_r; reflexivity |]).
      contradiction.
  - intros h' L' Hsame.
    assert (Hform' : isHandFist h' =
                  Normal (Rgtb (landmarkY h' 8) (landmarkY h' 5)
                          && Rgtb (landmarkY h' 12) (landmarkY h' 9)
                          && Rgtb (landmarkY h' 16) (landmarkY h' 13)
                          && Rgtb (landmarkY h' 20) (landmarkY h' 17))%bool).
    { explode h' L'. unfold isHandFist, curled, landmarkY. cbn.
      repeat match goal with
             | |- context [Rgtb ?a ?b] => destruct (Rgtb a b); cbn
             end; reflexivity. }
    rewrite Hform, Hform'.
    rewrite !Hsame by (cbn; tauto). reflexivity.
Qed.

Lemma isHandFist_tips_below_joints_witness :
  isHandFist (fistAt (mkLandmark 0.5 0.5 0))
  = isHandFist (handWith (mkLandmark 0.5 0.5 0) (mkLandmark 0.9 0.6 (-1))).
Proof.
  destruct (isHandFist_tips_below_joints (fistAt (mkLandmark 0.5 0.5 0))
              eq_refl) as (_ & _ & Hsame).
  apply Hsame; [reflexivity |].
  intros i Hin. cbn in Hin.
  repeat (destruct Hin as [<- | Hin]; [unfold landmarkY; cbn; lra |]).
  contradiction.
Defined.

(** Split a hand into its first landmarks, closing the cases in which it
    is too short with [tac]. *)
Tactic Notation "peel" integer(n) ident(h) "by" tactic(tac) :=
  do n (destruct h as [| ? h]; [tac |]).

Lemma getPalmCenter_short (h : Hand) :
  (length h < 18)%nat -> getPalmCenter h = TypeError.
Proof.
  peel 18 h by reflexivity. cbn. lia.
Qed.

(** X2: [getPalmCenter] throws exactly on hands with fewer than 18
    landmarks (it reads landmark 17 and nothing beyond); the extra
    landmarks of a longer hand are accepted. *)
Theorem getPalmCenter_throws_iff_short (h : Hand) :
  getPalmCenter h = TypeError <-> (length h < 18)%nat.
Proof.
  split; [| apply getPalmCenter_short].
  peel 18 h by (intros _; cbn; lia).
  intros E. discriminate E.
Qed.

Lemma getPalmCenter_translateHand (v : Landmark) (h : Hand) :
  getPalmCenter (translateHand v h) =
  match getPalmCenter h with
  | Normal p => Normal (translate v p)
  | TypeError => TypeError
  end.
Proof.
  peel 18 h by reflexivity.
  unfold getPalmCenter, palmCoord, translate. cbn.
  f_equal. f_equal; lra.
Qed.

Lemma isHandPinched_translateHand (v : Landmark) (h : Hand) :
  isHandPinched (translateHand v h) = isHandPinched h.
Proof.
  peel 9 h by reflexivity.
  unfold isHandPinched, distance. cbn. do 2 f_equal. f_equal. ring.
Qed.

Lemma isHandFist_translateHand (v : Landmark) (h : Hand) :
  isHandFist (translateHand v h) = isHandFist h.
Proof.
  unfold isHandFist, curled.
  peel 21 h by (cbn; rewrite ?Rgtb_shift; reflexivity).
  cbn. rewrite ?Rgtb_shift. reflexivity.
Qed.

(** X3: the pose classifier looks at the shape of the hand, not at where
    it is: moving every landmark by one offset (in x, y and z) moves the
    palm center by that offset and changes neither [isHandPinched] nor
    [isHandFist], on hands of any length (a hand too short for a function
    still makes it throw). *)
Theorem pose_follows_hand (v : Landmark) (h : Hand) :
  getPalmCenter (translateHand v h) =
  match getPalmCenter h with
  | Normal p => Normal (translate v p)
  | TypeError => TypeError
  end /\
  isHandPinched (translateHand v h) = isHandPinched h /\
  isHandFist (translateHand v h) = isHandFist h.
Proof.
  split; [apply getPalmCenter_translateHand |].
  split; [apply isHandPinched_translateHand | apply isHandFist_translateHand].
Qed.

Lemma sqrt_sum_squares_le (a b c d : R) :
  sqrt ((a + c) ^ 2 + (b + d) ^ 2)
  <= sqrt (a ^ 2 + b ^ 2) + sqrt (c ^ 2 + d ^ 2).
Proof.
  set (u := sqrt (a ^ 2 + b ^ 2)). set (w := sqrt (c ^ 2 + d ^ 2)).
  assert (Hu : 0 <= u) by apply sqrt_pos.
  assert (Hw : 0 <= w) by apply sqrt_pos.
  assert (Hu2 : u * u = a ^ 2 + b ^ 2) by (apply sqrt_sqrt; nra).
  assert (Hw2 : w * w = c ^ 2 + d ^ 2) by (apply sqrt_sqrt; nra).
  assert (Hcs : a * c + b * d <= u * w).
  { destruct (Rle_dec (a * c + b * d) 0) as [Hneg | Hpos].
    - nra.
    - apply Rnot_le_lt in Hpos.
      assert (Hsq : (a * c + b * d) * (a * c + b * d) <= (u * w) * (u * w)).
      { replace ((u * w) * (u * w)) with ((u * u) * (w * w)) by ring.
        rewrite Hu2, Hw2.
        replace ((a ^ 2 + b ^ 2) * (c ^ 2 + d ^ 2))
          with ((a * c + b * d) * (a * c + b * d)
                + (a * d - b * c) * (a * d - b * c)) by ring.
        pose proof (Rle_0_sqr (a * d - b * c)) as Hs. unfold Rsqr in Hs.
        lra. }
      assert (0 <= u * w) by nra. nra. }
  rewrite <- (sqrt_square (u + w)) by lra.
  apply sqrt_le_1_alt. nra.
Qed.

(** X4: on defined points [distance] is a pseudo-metric of the image
    plane: it is symmetric, never negative, zero exactly when the two
    points share x and y (whatever their z), unchanged when both points
    are moved by one offset, and it satisfies the triangle inequality. *)
Theorem distance_pseudo_metric (p q r v : Point) :
  distance (Some p) (Some q) = Normal (planarDistance p q) /\
  planarDistance p q = planarDistance q p /\
  0 <= planarDistance p q /\
  (planarDistance p q = 0 <-> x p = x q /\ y p = y q) /\
  planarDistance (translate v p) (translate v q) = planarDistance p q /\
  planarDistance p r <= planarDistance p q + planarDistance q r.
Proof.
  split; [reflexivity |].
  split; [| split; [| split; [| split]]].
  - unfold planarDistance. f_equal. ring.
  - apply sqrt_pos.
  - unfold planarDistance. split.
    + intros E.
      apply sqrt_eq_0 in E;
        [| apply Rplus_le_le_0_compat; apply pow2_ge_0].
      rewrite <- !Rsqr_pow2 in E. apply Rplus_sqr_eq_0 in E. lra.
    + intros [-> ->].
      replace ((x q - x q) ^ 2 + (y q - y q) ^ 2) with 0 by ring.
      apply sqrt_0.
  - unfold planarDistance, translate. cbn [x y]. f_equal. ring.
  - unfold planarDistance.
    replace (x p - x r) with ((x p - x q) + (x q - x r)) by ring.
    replace (y p - y r) with ((y p - y q) + (y q - y r)) by ring.
    apply sqrt_sum_squares_le.
Qed.

(** ** Gesture detector *)

Lemma zoom_strength_range (d s : R) :
  strengthOf
    (if Rgtb (Rabs d) 0.008 then
       if Rgtb d 0 then Some (TwoHandSpread (Rmin 1 (d * 12)))
       else Some (TwoHandPinch (Rmin 1 (Rabs d * 12)))
     else None) = Some s ->
  0.096 < s <= 1.
Proof.
  destruct (Rgtb (Rabs d) 0.008) eqn:Ha; [| discriminate].
  apply Rgtb_true_iff in Ha.
  destruct (Rgtb d 0) eqn:Hd; cbn; intros E; injection E as <-.
  - apply Rgtb_true_iff in Hd. rewrite Rabs_right in Ha by lra.
    unfold Rmin. settle.
  - unfold Rmin. settle.
Qed.

(** What a callback can emit: a two-hand gesture only comes out of the
    dead-zone test on some distance change [d]. *)
Lemma onResults_emits (t t' : Tracker) (r : option (list Hand))
      (g : option Gesture) :
  onResults r t = (Normal (Emit g), t') ->
  strengthOf g = None \/
  exists d,
    g = if Rgtb (Rabs d) 0.008 then
          if Rgtb d 0 then Some (TwoHandSpread (Rmin 1 (d * 12)))
          else Some (TwoHandPinch (Rmin 1 (Rabs d * 12)))
        else None.
Proof.
  unfold onResults, detectGesture. run_eff.
  destruct (canvasRef t); cbn [negb]; [| discriminate].
  destruct r as [[| h1 [| h2 rest]] |]; cbv beta iota.
  - intros E. injection E as <- _. left. reflexivity.
  - unfold detectSingleHandGesture. run_eff.
    destruct (getPalmCenter h1); [| discriminate].
    destruct (isHandFist h1) as [[|] |]; [| | discriminate].
    + destruct (lastPositionRef _);
        intros E; injection E as <- _; left; reflexivity.
    + intros E. injection E as <- _. left. reflexivity.
  - unfold detectTwoHandGesture. run_eff.
    destruct (getPalmCenter h1); [| discriminate].
    destruct (getPalmCenter h2); [| discriminate].
    destruct (isHandPinched h1 &&? isHandPinched h2) as [b |];
      [| discriminate].
    rewrite distance_defined. cbv beta iota.
    intros E. injection E as <- _.
    destruct b; [| left; reflexivity].
    destruct (lastTwoHandsDistRef _) as [lastDist |]; [| left; reflexivity].
    right. eexists. reflexivity.
  - intros E. injection E as <- _. left. reflexivity.
Qed.

(** X5: whatever the refs hold and whatever frame arrives, a two-hand
    gesture that [onResults] emits has a strength above 0.096 (the dead
    zone times the gain 12) and at most 1. *)
Theorem emitted_strength_range (t t' : Tracker) (r : option (list Hand))
        (g : option Gesture) (s : R) :
  onResults r t = (Normal (Emit g), t') ->
  strengthOf g = Some s ->
  0.096 < s <= 1.
Proof.
  intros E Hs.
  destruct (onResults_emits t t' r g E) as [Hnone | [d Hd]].
  - rewrite Hnone in Hs. discriminate Hs.
  - subst g. apply (zoom_strength_range d s Hs).
Qed.

(** Two pinched hands 0.5 apart on a baseline of 0.509. *)
Lemma sample_pinch_frame :
  onResults (Some [uniformHand (mkLandmark 0.5 0.5 0);
                   uniformHand (mkLandmark 0 0.5 0)])
            (with_lastTwoHandsDistRef (Some 0.509) freshTracker)
  = (Normal (Emit (Some (TwoHandPinch 0.108))),
     with_lastTwoHandsDistRef (Some 0.5)
       (with_lastPinchDistRef None
          (with_lastPositionRef None
             (with_status tracking
                (with_lastTwoHandsDistRef (Some 0.509) freshTracker))))).
Proof.
  assert (D : planarDistance (mkLandmark 0.5 0.5 0) (mkLandmark 0 0.5 0)
              = 0.5)
    by (rewrite planarDistance_same_y; cbn [x y]; lra).
  unfold uniformHand.
  rewrite (onResults_two_hands _ _ _ [] (mkLandmark 0.5 0.5 0)
             (mkLandmark 0 0.5 0) true);
    [| reflexivity | apply getPalmCenter_handWith
     | apply getPalmCenter_handWith
     | apply both_pinched; apply isHandPinched_handWith ].
  rewrite D. cbn [lastTwoHandsDistRef with_lastTwoHandsDistRef]. cbv zeta.
  assert (E1 : Rgtb (Rabs (0.5 - 0.509)) 0.008 = true)
    by (apply Rgtb_true_iff; rewrite Rabs_left; lra).
  assert (E2 : Rgtb (0.5 - 0.509) 0 = false)
    by (apply Rgtb_false_iff; lra).
  assert (E3 : Rmin 1 (Rabs (0.5 - 0.509) * 12) = 0.108)
    by (rewrite Rabs_left by lra; unfold Rmin; settle).
  rewrite E1, E2, E3. reflexivity.
Qed.

Lemma emitted_strength_range_witness :
  exists g t' s,
    onResults (Some [uniformHand (mkLandmark 0.5 0.5 0);
                     uniformHand (mkLandmark 0 0.5 0)])
              (with_lastTwoHandsDistRef (Some 0.509) freshTracker)
    = (Normal (Emit g), t') /\
    strengthOf g = Some s /\ 0.096 < s <= 1.
Proof.
  do 3 eexists. split; [apply sample_pinch_frame |].
  split; [reflexivity |].
  exact (emitted_strength_range _ _ _ _ 0.108 sample_pinch_frame eq_refl).
Defined.

Lemma palm_implies_pinch_defined (h : Hand) (p : Point) :
  getPalmCenter h = Normal p -> exists b, isHandPinched h = Normal b.
Proof.
  peel 18 h by (intros E; discriminate E).
  intros _. eexists. reflexivity.
Qed.

Lemma planarDistance_sym (p q : Point) :
  planarDistance p q = planarDistance q p.
Proof. unfold planarDistance. f_equal. ring. Qed.

(** X6: a frame with two or more hands is read as the unordered pair of
    its first two hands: hands beyond the second are ignored, and
    exchanging the first two changes neither the emission (also when the
    callback throws) nor the refs. *)
Theorem two_hand_frame_is_a_pair (t : Tracker) (h1 h2 : Hand)
        (rest : list Hand) :
  onResults (Some (h1 :: h2 :: rest)) t = onResults (Some [h1; h2]) t /\
  onResults (Some (h2 :: h1 :: rest)) t = onResults (Some (h1 :: h2 :: rest)) t.
Proof.
  split; [reflexivity |].
  unfold onResults, detectGesture, detectTwoHandGesture. run_eff.
  destruct (canvasRef t); cbn [negb]; [| reflexivity]. cbv beta iota.
  destruct (getPalmCenter h1) as [p1 |] eqn:E1;
    destruct (getPalmCenter h2) as [p2 |] eqn:E2; try reflexivity.
  destruct (palm_implies_pinch_defined h1 p1 E1) as [b1 ->].
  destruct (palm_implies_pinch_defined h2 p2 E2) as [b2 ->].
  rewrite !distance_defined, (planarDistance_sym p2 p1).
  destruct b1, b2; reflexivity.
Qed.

(** X7: two-hand detection sees only the relative placement of the two
    hands: moving both hands by one offset changes neither what the
    callback emits nor the baseline it stores. *)
Theorem two_hand_frame_translate (t : Tracker) (v : Landmark) (h1 h2 : Hand)
        (rest : list Hand) :
  onResults (Some (translateHand v h1 :: translateHand v h2 :: rest)) t
  = onResults (Some (h1 :: h2 :: rest)) t.
Proof.
  unfold onResults, detectGesture, detectTwoHandGesture. run_eff.
  destruct (canvasRef t); cbn [negb]; [| reflexivity]. cbv beta iota.
  rewrite !getPalmCenter_translateHand, !isHandPinched_translateHand.
  destruct (getPalmCenter h1) as [p1 |]; [| reflexivity].
  destruct (getPalmCenter h2) as [p2 |]; [| reflexivity].
  rewrite !distance_defined.
  replace (planarDistance (translate v p1) (translate v p2))
    with (planarDistance p1 p2); [reflexivity |].
  unfold planarDistance, translate. cbn [x y]. f_equal. ring.
Qed.

(** X8: entering two-hand mode never zooms.  After a processed
    single-hand frame (even one that threw), and on a freshly mounted
    tracker, the first frame with two well-formed hands emits the null
    gesture, whatever the pinch states and the distance, and stores the
    inter-palm distance as baseline. *)
Theorem first_two_hand_frame_is_silent (t : Tracker) (h h1 h2 : Hand)
        (rest : list Hand) :
  canvasRef t = true ->
  length h1 = 21%nat -> length h2 = 21%nat ->
  exists (p1 p2 : Point),
    getPalmCenter h1 = Normal p1 /\
    getPalmCenter h2 = Normal p2 /\
    (forall t0,
        t0 = snd (onResults (Some [h]) t) \/ t0 = freshTracker ->
        exists t',
          onResults (Some (h1 :: h2 :: rest)) t0 = (Normal (Emit None), t') /\
          lastTwoHandsDistRef t' = Some (planarDistance p1 p2)).
Proof.
  intros Hc L1 L2.
  destruct (getPalmCenter_total h1 L1) as [p1 E1].
  destruct (getPalmCenter_total h2 L2) as [p2 E2].
  destruct (isHandPinched_total h1 L1) as [b1 B1].
  destruct (isHandPinched_total h2 L2) as [b2 B2].
  assert (Eb : isHandPinched h1 &&? isHandPinched h2 = Normal (b1 && b2)).
  { rewrite B1, B2. destruct b1; reflexivity. }
  exists p1, p2. split; [exact E1 | split; [exact E2 |]].
  intros t0 Ht0.
  assert (Hc0 : canvasRef t0 = true /\ lastTwoHandsDistRef t0 = None).
  { destruct Ht0 as [-> | ->]; [| split; reflexivity].
    unfold onResults, detectGesture, detectSingleHandGesture. run_eff.
    rewrite Hc. cbn [negb]. cbv beta iota.
    split_completions; cbn; auto. }
  destruct Hc0 as [Hc0 Hnone].
  eexists. split.
  - rewrite (onResults_two_hands t0 h1 h2 rest p1 p2 _ Hc0 E1 E2 Eb).
    rewrite Hnone. destruct (b1 && b2)%bool; reflexivity.
  - reflexivity.
Qed.

Lemma first_two_hand_frame_is_silent_witness :
  exists t',
    onResults (Some [uniformHand (mkLandmark 0.5 0.5 0);
                     uniformHand (mkLandmark 0 0.5 0)])
              (snd (onResults (Some [fistAt (mkLandmark 0.2 0.5 0)])
                              (with_lastTwoHandsDistRef (Some 5)
                                                        freshTracker)))
    = (Normal (Emit None), t').
Proof.
  destruct (first_two_hand_frame_is_silent
              (with_lastTwoHandsDistRef (Some 5) freshTracker)
              (fistAt (mkLandmark 0.2 0.5 0))
              (uniformHand (mkLandmark 0.5 0.5 0))
              (uniformHand (mkLandmark 0 0.5 0)) []
              eq_refl eq_refl eq_refl)
    as (p1 & p2 & _ & _ & H).
  destruct (H _ (or_introl eq_refl)) as (t' & E & _).
  exists t'. exact E.
Defined.

(** X9: no drift while the hands keep their distance.  When two
    consecutive frames show two hands (each with a palm center) at the
    same inter-palm distance, the second frame emits the null gesture,
    whatever the pinch states; repeating a frame is the special case. *)
Theorem steady_hands_emit_nothing (t : Tracker) (h1 h2 k1 k2 : Hand)
        (rest rest' : list Hand) (p1 p2 q1 q2 : Point) :
  canvasRef t = true ->
  getPalmCenter h1 = Normal p1 -> getPalmCenter h2 = Normal p2 ->
  getPalmCenter k1 = Normal q1 -> getPalmCenter k2 = Normal q2 ->
  planarDistance q1 q2 = planarDistance p1 p2 ->
  exists t',
    onResults (Some (k1 :: k2 :: rest'))
              (snd (onResults (Some (h1 :: h2 :: rest)) t))
    = (Normal (Emit None), t') /\
    lastTwoHandsDistRef t' = Some (planarDistance p1 p2).
Proof.
  intros Hc E1 E2 F1 F2 Hd.
  destruct (palm_implies_pinch_defined h1 p1 E1) as [b1 B1].
  destruct (palm_implies_pinch_defined h2 p2 E2) as [b2 B2].
  destruct (palm_implies_pinch_defined k1 q1 F1) as [c1 C1].
  destruct (palm_implies_pinch_defined k2 q2 F2) as [c2 C2].
  assert (Eb : isHandPinched h1 &&? isHandPinched h2 = Normal (b1 && b2)).
  { rewrite B1, B2. destruct b1; reflexivity. }
  assert (Ec : isHandPinched k1 &&? isHandPinched k2 = Normal (c1 && c2)).
  { rewrite C1, C2. destruct c1; reflexivity. }
  rewrite (onResults_two_hands t h1 h2 rest p1 p2 _ Hc E1 E2 Eb).
  cbn [snd].
  rewrite (onResults_two_hands _ k1 k2 rest' q1 q2 (c1 && c2));
    [| exact Hc | exact F1 | exact F2 | exact Ec].
  cbn [lastTwoHandsDistRef with_lastTwoHandsDistRef]. rewrite Hd.
  assert (Z : Rgtb (Rabs (planarDistance p1 p2 - planarDistance p1 p2)) 0.008
              = false).
  { apply Rgtb_false_iff. rewrite Rminus_diag, Rabs_R0. lra. }
  cbv zeta. rewrite Z.
  eexists. split; [destruct (c1 && c2)%bool; reflexivity | reflexivity].
Qed.

Lemma steady_hands_emit_nothing_witness :
  exists t',
    onResults (Some [uniformHand (mkLandmark 0.6 0.3 0);
                     uniformHand (mkLandmark 0.1 0.3 0)])
              (snd (onResults (Some [uniformHand (mkLandmark 0.5 0.5 0);
                                     uniformHand (mkLandmark 0 0.5 0)])
                              freshTracker))
    = (Normal (Emit None), t').
Proof.
  destruct (steady_hands_emit_nothing freshTracker
              (uniformHand (mkLandmark 0.5 0.5 0))
              (uniformHand (mkLandmark 0 0.5 0))
              (uniformHand (mkLandmark 0.6 0.3 0))
              (uniformHand (mkLandmark 0.1 0.3 0)) [] []
              (mkLandmark 0.5 0.5 0) (mkLandmark 0 0.5 0)
              (mkLandmark 0.6 0.3 0) (mkLandmark 0.1 0.3 0)
              eq_refl
              (getPalmCenter_handWith _ _) (getPalmCenter_handWith _ _)
              (getPalmCenter_handWith _ _) (getPalmCenter_handWith _ _))
    as (t' & E & _).
  - rewrite !planarDistance_same_y; cbn [x y]; lra.
  - exists t'. exact E.
Defined.

Lemma last_cons {A : Type} (a d : A) (l : list A) :
  last (a :: l) d = last l a.
Proof.
  revert a d. induction l as [| b l IH]; intros a d; [reflexivity |].
  change (last (a :: b :: l) d) with (last (b :: l) d).
  rewrite (IH b d), (IH b a). reflexivity.
Qed.

Lemma fist_run_telescopes (hs : list Hand) (t : Tracker) (hq : Hand)
      (q : Point) :
  canvasRef t = true ->
  lastPositionRef t = Some q ->
  getPalmCenter hq = Normal q ->
  Forall goodFist hs ->
  exists pn,
    getPalmCenter (last hs hq) = Normal pn /\
    sumR (map deltaX (fst (runFrames (singleHandFrames hs) t)))
    = x pn - x q.
Proof.
  revert t hq q. induction hs as [| h hs IH]; intros t hq q Hc Hq Eq Hall.
  - exists q. split; [exact Eq |]. cbn. lra.
  - inversion Hall as [| h' hs' [L F] Hrest]; subst.
    destruct (getPalmCenter_total h L) as [p E].
    cbn [singleHandFrames map runFrames].
    rewrite (onResults_one_hand t h p true Hc E F).
    destruct (IH (with_lastPositionRef (Some p)
                    (with_lastTwoHandsCenterRef None
                       (with_lastTwoHandsDistRef None
                          (with_status tracking t))))
                 h p Hc eq_refl E Hrest) as (pn & En & Hsum).
    exists pn. rewrite last_cons. split; [exact En |].
    fold (singleHandFrames hs).
    destruct (runFrames (singleHandFrames hs) _) as [out t2].
    cbn [fst map sumR fold_right deltaX] in Hsum |- *.
    rewrite Hq. cbn [option_map pointDiff x].
    rewrite Hsum. lra.
Qed.

(** X10: a grip adds up.  Over consecutive single-hand frames that all
    show a well-formed fist, starting with no stored palm, the first frame
    carries no delta and the [delta.x] values emitted afterwards sum to
    the x of the last palm center minus the x of the first; the frame
    rate and the path in between do not matter. *)
Theorem fist_deltas_telescope (t : Tracker) (h0 : Hand) (hs : list Hand) :
  canvasRef t = true ->
  lastPositionRef t = None ->
  Forall goodFist (h0 :: hs) ->
  exists p0 pn,
    getPalmCenter h0 = Normal p0 /\
    getPalmCenter (last hs h0) = Normal pn /\
    hd None (fst (runFrames (singleHandFrames (h0 :: hs)) t))
    = Some (Emit (Some (Fist p0 None))) /\
    sumR (map deltaX (fst (runFrames (singleHandFrames (h0 :: hs)) t)))
    = x pn - x p0.
Proof.
  intros Hc Hnone Hall.
  inversion Hall as [| h' hs' [L F] Hrest]; subst.
  destruct (getPalmCenter_total h0 L) as [p0 E0].
  cbn [singleHandFrames map runFrames].
  rewrite (onResults_one_hand t h0 p0 true Hc E0 F).
  destruct (fist_run_telescopes hs
              (with_lastPositionRef (Some p0)
                 (with_lastTwoHandsCenterRef None
                    (with_lastTwoHandsDistRef None
                       (with_status tracking t))))
              h0 p0 Hc eq_refl E0 Hrest) as (pn & En & Hsum).
  exists p0, pn. split; [exact E0 | split; [exact En |]].
  fold (singleHandFrames hs).
  destruct (runFrames (singleHandFrames hs) _) as [out t2].
  cbn [fst map sumR fold_right deltaX hd] in Hsum |- *.
  rewrite Hnone. cbn [option_map]. split; [reflexivity |].
  rewrite Hsum. lra.
Qed.

Lemma goodFist_fistAt (p : Landmark) : goodFist (fistAt p).
Proof. split; [reflexivity | apply isHandFist_fistAt]. Qed.

Lemma fist_deltas_telescope_witness :
  sumR (map deltaX
          (fst (runFrames
                  (singleHandFrames [fistAt (mkLandmark 0.2 0.5 0);
                                     fistAt (mkLandmark 0.9 0.4 0);
                                     fistAt (mkLandmark 0.7 0.5 0)])
                  freshTracker)))
  = 0.7 - 0.2.
Proof.
  destruct (fist_deltas_telescope freshTracker
              (fistAt (mkLandmark 0.2 0.5 0))
              [fistAt (mkLandmark 0.9 0.4 0); fistAt (mkLandmark 0.7 0.5 0)]
              eq_refl eq_refl)
    as (p0 & pn & E0 & En & _ & Hsum).
  - repeat constructor; apply goodFist_fistAt.
  - unfold fistAt in E0. rewrite getPalmCenter_handWith in E0.
    injection E0 as <-.
    cbn [last] in En. unfold fistAt in En.
    rewrite getPalmCenter_handWith in En. injection En as <-.
    exact Hsum.
Defined.

(** X11: a single hand with fewer than 18 landmarks makes the callback
    throw after it has set the status and nulled the two-hand refs:
    [onGesture] is not called, so the current gesture of the app stays
    what it was (it is not reset to null), and [lastPositionRef] keeps its
    value. *)
Theorem short_hand_throws (a : App) (h : Hand) :
  canvasRef (tracker a) = true ->
  (length h < 18)%nat ->
  onResults (Some [h]) (tracker a)
  = (TypeError,
     with_lastTwoHandsCenterRef None
       (with_lastTwoHandsDistRef None (with_status tracking (tracker a)))) /\
  currentGesture (visionCallback (Some [h]) a) = currentGesture a /\
  lastPositionRef (tracker (visionCallback (Some [h]) a))
  = lastPositionRef (tracker a).
Proof.
  intros Hc Hshort.
  assert (E : onResults (Some [h]) (tracker a)
              = (TypeError,
                 with_lastTwoHandsCenterRef None
                   (with_lastTwoHandsDistRef None
                      (with_status tracking (tracker a))))).
  { unfold onResults, detectGesture, detectSingleHandGesture. run_eff.
    rewrite Hc. cbn [negb]. cbv beta iota.
    rewrite (getPalmCenter_short h Hshort). reflexivity. }
  split; [exact E |].
  unfold visionCallback. rewrite E. split; reflexivity.
Qed.

Lemma short_hand_throws_witness :
  currentGesture
    (visionCallback (Some [[mkLandmark 0.5 0.5 0]])
       (mkApp freshTracker true
              (Some (Fist (mkLandmark 0.5 0.5 0) None))))
  = Some (Fist (mkLandmark 0.5 0.5 0) None).
Proof.
  destruct (short_hand_throws
              (mkApp freshTracker true
                     (Some (Fist (mkLandmark 0.5 0.5 0) None)))
              [mkLandmark 0.5 0.5 0] eq_refl) as (_ & Hg & _).
  - cbn. lia.
  - exact Hg.
Defined.

(** ** The app *)

Lemma onResults_keeps (t : Tracker) (r : option (list Hand)) :
  canvasRef (snd (onResults r t)) = canvasRef t /\
  (lastPinchDistRef t = None ->
   lastPinchDistRef (snd (onResults r t)) = None) /\
  (lastTwoHandsCenterRef t = None ->
   lastTwoHandsCenterRef (snd (onResults r t)) = None).
Proof.
  unfold onResults, detectGesture, detectSingleHandGesture,
    detectTwoHandGesture. run_eff.
  destruct (canvasRef t) eqn:Hc; cbn [negb]; [| cbn; auto].
  destruct r as [[| h1 [| h2 rest]] |]; cbv beta iota;
    split_completions; cbn; auto.
Qed.

Lemma handle_appInvariant (a : App) (e : Event) :
  appInvariant a -> appInvariant (handle a e).
Proof.
  intros (Hc & Hp & Hcen & Hoff).
  destruct e as [| r |]; cbn [handle].
  - unfold toggleHandTracking, setHandTrackingEnabled, appInvariant.
    cbn [tracker handTrackingEnabled currentGesture enabledEffect
         with_canvasRef with_status canvasRef lastPinchDistRef
         lastTwoHandsCenterRef status].
    repeat split; try assumption;
      destruct (handTrackingEnabled a); cbn in *; auto; discriminate.
  - destruct (onResults_keeps (tracker a) r) as (Kc & Kp & Kcen).
    unfold appInvariant. rewrite visionCallback_tracker.
    assert (He : handTrackingEnabled (visionCallback r a)
                 = handTrackingEnabled a).
    { unfold visionCallback.
      destruct (onResults r (tracker a)) as [[[| g] |] t']; reflexivity. }
    rewrite He, Kc.
    split; [exact Hc | split; [auto | split; [auto |]]].
    intros Hdis. destruct (Hoff Hdis) as [Hg Hs].
    unfold visionCallback.
    rewrite onResults_no_canvas by (rewrite Hc; exact Hdis).
    cbn. auto.
  - unfold appInvariant. cbn. repeat split; reflexivity.
Qed.

Lemma runApp_appInvariant (events : list Event) :
  appInvariant (runApp events).
Proof.
  unfold runApp.
  assert (H0 : appInvariant enterFullscreen)
    by (unfold appInvariant; cbn; repeat split; reflexivity).
  revert H0. generalize enterFullscreen.
  induction events as [| e events IH]; intros a Ha; [exact Ha |].
  cbn [fold_left]. apply IH. apply handle_appInvariant. exact Ha.
Qed.



(** X13: two of the four refs are dead.  In every state the app reaches
    [lastPinchDistRef] and [lastTwoHandsCenterRef] are null: the code only
    ever writes null to them (the center between the hands is computed on
    every two-hand frame but never stored). *)
Theorem unused_refs_stay_null (events : list Event) :
  lastPinchDistRef (tracker (runApp events)) = None /\
  lastTwoHandsCenterRef (tracker (runApp events)) = None.
Proof.
  destruct (runApp_appInvariant events) as (_ & Hp & Hcen & _).
  split; assumption.
Qed.

(** ** Zooming *)

Lemma clamp_cases (v : R) :
  (v <= 3 /\ Rmax 3 (Rmin 20 v) = 3) \/
  (3 <= v <= 20 /\ Rmax 3 (Rmin 20 v) = v) \/
  (20 <= v /\ Rmax 3 (Rmin 20 v) = 20).
Proof.
  unfold Rmin. destruct (Rle_dec 20 v) as [H20 | H20].
  - right. right. split; [exact H20 |]. apply Rmax_right. lra.
  - destruct (Rle_dec 3 v) as [H3 | H3].
    + right. left. split; [lra |]. apply Rmax_right. exact H3.
    + left. split; [lra |]. apply Rmax_left. lra.
Qed.

(** Replace every clamp of the goal by its value, by cases. *)
Ltac clamp :=
  repeat match goal with
         | |- context [Rmax 3 (Rmin 20 ?v)] =>
             let E := fresh "E" in
             destruct (clamp_cases v) as [[? E] | [[? E] | [? E]]];
             rewrite E in *; clear E
         | H : context [Rmax 3 (Rmin 20 ?v)] |- _ =>
             let E := fresh "E" in
             destruct (clamp_cases v) as [[? E] | [[? E] | [? E]]];
             rewrite E in *; clear E
         end.

Section Zooming.

Context {K : Type} {OC : OrbitControls K}.

Lemma rescale_rescale (rig : Rig K) (d1 d2 : R) :
  0 < d1 -> rescale d2 (rescale d1 rig) = rescale d2 rig.
Proof.
  intros Hd1. unfold rescale. cbn [position controls]. f_equal.
  destruct (rescale_factor (position rig) d1 Hd1) as (k & Hk & ->).
  rewrite normalize_scaled by exact Hk. reflexivity.
Qed.

Lemma rescale_same (rig : Rig K) :
  cameraDistance rig <> 0 -> rescale (cameraDistance rig) rig = rig.
Proof.
  intros Hnz. destruct rig as [v c]. unfold rescale, cameraDistance in *.
  cbn [position controls] in *. f_equal.
  rewrite (normalize_nonzero v Hnz), multiplyScalar_compose.
  destruct v as [a b e]. unfold Vector3.multiplyScalar.
  cbn [Vector3.x Vector3.y Vector3.z]. f_equal; field; exact Hnz.
Qed.

Lemma pinch_as_rescale (rig : Rig K) (s : R) :
  applyGesture (TwoHandPinch s) rig
  = rescale (Rmax 3 (Rmin 20 (cameraDistance rig + s * 0.5))) rig.
Proof. reflexivity. Qed.

Lemma spread_as_rescale (rig : Rig K) (s : R) :
  applyGesture (TwoHandSpread s) rig
  = rescale (Rmax 3 (Rmin 20 (cameraDistance rig - s * 0.5))) rig.
Proof. reflexivity. Qed.

(** X14: a zoom gesture never moves the camera onto the orbit target and
    never moves it off it: the distance after the step is 0 exactly when
    it was 0 before.  A camera sitting on the target stays there, outside
    the range [3, 20], whatever gestures arrive. *)
Theorem zoom_cannot_leave_target (rig : Rig K) (g : Gesture) :
  isZoom g = true ->
  (cameraDistance (applyGesture g rig) = 0 <-> cameraDistance rig = 0) /\
  (cameraDistance rig = 0 -> position (applyGesture g rig) = position rig).
Proof.
  intros Hz.
  assert (Hstay : cameraDistance rig = 0 ->
                  position (applyGesture g rig) = position rig).
  { intros H0. unfold cameraDistance in H0.
    pose proof (length_zero_inv (position rig) H0) as Hv.
    destruct g as [p d | s | s]; [discriminate Hz | |];
      cbn [applyGesture rescale position]; cbv zeta;
      rewrite Hv, normalize_zero; unfold Vector3.multiplyScalar;
      cbn [Vector3.x Vector3.y Vector3.z]; f_equal; ring. }
  split; [| exact Hstay]. split.
  - intros H0. destruct (Req_EM_T (cameraDistance rig) 0) as [E | Hnz];
      [exact E | exfalso].
    rewrite zoom_distance in H0 by exact Hnz.
    destruct g as [p d | s | s]; [discriminate Hz | |];
      match type of H0 with
      | Rmax 3 (Rmin 20 ?v) = 0 => pose proof (clamp_bounds v); lra
      end.
  - intros H0. unfold cameraDistance at 1. rewrite (Hstay H0). exact H0.
Qed.

(** X15: with the camera in range and a strength that is not negative, a
    twohand-pinch step never brings the camera closer and a twohand-spread
    step never takes it farther, and neither changes the distance by more
    than [strength * 0.5]. *)
Theorem zoom_step_is_monotone (rig : Rig K) (s : R) :
  3 <= cameraDistance rig <= 20 ->
  0 <= s ->
  cameraDistance rig
  <= cameraDistance (applyGesture (TwoHandPinch s) rig)
  <= cameraDistance rig + s * 0.5 /\
  cameraDistance rig - s * 0.5
  <= cameraDistance (applyGesture (TwoHandSpread s) rig)
  <= cameraDistance rig.
Proof.
  intros Hr Hs.
  rewrite (zoom_distance rig (TwoHandPinch s)) by lra.
  rewrite (zoom_distance rig (TwoHandSpread s)) by lra.
  clamp; repeat split; lra.
Qed.

(** X16: zooming out and back in is a round trip as long as no clamp is
    hit: a twohand-pinch of strength [s] followed by a twohand-spread of
    the same strength gives back the camera exactly (position and
    controller), and so does the spread followed by the pinch. *)
Theorem zoom_round_trip (rig : Rig K) (s : R) :
  0 <= s ->
  (3 <= cameraDistance rig ->
   cameraDistance rig + s * 0.5 <= 20 ->
   applyGesture (TwoHandSpread s) (applyGesture (TwoHandPinch s) rig) = rig)
  /\
  (3 <= cameraDistance rig - s * 0.5 ->
   cameraDistance rig <= 20 ->
   applyGesture (TwoHandPinch s) (applyGesture (TwoHandSpread s) rig) = rig).
Proof.
  intros Hs. split; intros H3 H20.
  - rewrite spread_as_rescale.
    rewrite (zoom_distance rig (TwoHandPinch s)) by lra.
    rewrite pinch_as_rescale.
    replace (Rmax 3 (Rmin 20 (cameraDistance rig + s * 0.5)))
      with (cameraDistance rig + s * 0.5) by (clamp; lra).
    replace (Rmax 3 (Rmin 20 (cameraDistance rig + s * 0.5 - s * 0.5)))
      with (cameraDistance rig) by (clamp; lra).
    rewrite rescale_rescale by lra. apply rescale_same. lra.
  - rewrite pinch_as_rescale.
    rewrite (zoom_distance rig (TwoHandSpread s)) by lra.
    rewrite spread_as_rescale.
    replace (Rmax 3 (Rmin 20 (cameraDistance rig - s * 0.5)))
      with (cameraDistance rig - s * 0.5) by (clamp; lra).
    replace (Rmax 3 (Rmin 20 (cameraDistance rig - s * 0.5 + s * 0.5)))
      with (cameraDistance rig) by (clamp; lra).
    rewrite rescale_rescale by lra. apply rescale_same. lra.
Qed.

(** X17: zoom steps in one direction add up: with the camera in range,
    two twohand-pinch steps of strengths [s1] and [s2] (not negative)
    leave the camera where one step of strength [s1 + s2] would, clamps
    included; likewise for twohand-spread. *)
Theorem zoom_steps_add_up (rig : Rig K) (s1 s2 : R) :
  3 <= cameraDistance rig <= 20 ->
  0 <= s1 -> 0 <= s2 ->
  applyGesture (TwoHandPinch s2) (applyGesture (TwoHandPinch s1) rig)
  = applyGesture (TwoHandPinch (s1 + s2)) rig /\
  applyGesture (TwoHandSpread s2) (applyGesture (TwoHandSpread s1) rig)
  = applyGesture (TwoHandSpread (s1 + s2)) rig.
Proof.
  intros Hr H1 H2. split.
  - rewrite (pinch_as_rescale (applyGesture _ _)).
    rewrite (zoom_distance rig (TwoHandPinch s1)) by lra.
    rewrite !pinch_as_rescale.
    rewrite rescale_rescale
      by (pose proof (clamp_bounds (cameraDistance rig + s1 * 0.5)); lra).
    f_equal. clamp; lra.
  - rewrite (spread_as_rescale (applyGesture _ _)).
    rewrite (zoom_distance rig (TwoHandSpread s1)) by lra.
    rewrite !spread_as_rescale.
    rewrite rescale_rescale
      by (pose proof (clamp_bounds (cameraDistance rig - s1 * 0.5)); lra).
    f_equal. clamp; lra.
Qed.

End Zooming.

Lemma zoom_cannot_leave_target_witness :
  position (applyGesture (TwoHandPinch 1) (mkRig (Vector3.mk 0 0 0) 0))
  = Vector3.mk 0 0 0.
Proof.
  destruct (zoom_cannot_leave_target (mkRig (Vector3.mk 0 0 0) 0)
              (TwoHandPinch 1) eq_refl) as [_ Hstay].
  apply Hstay. unfold cameraDistance, Vector3.length.
  cbn [position Vector3.x Vector3.y Vector3.z].
  replace (0 * 0 + 0 * 0 + 0 * 0) with 0 by ring. apply sqrt_0.
Defined.

Lemma zoom_step_is_monotone_witness :
  cameraDistance initialRig
  <= cameraDistance (applyGesture (TwoHandPinch 1) initialRig)
  <= cameraDistance initialRig + 1 * 0.5.
Proof.
  destruct (zoom_step_is_monotone initialRig 1 initialRig_distance)
    as [Hpinch _]; [lra | exact Hpinch].
Defined.

Lemma initialRig_distance_tight :
  12 <= cameraDistance initialRig <= 13.
Proof.
  unfold cameraDistance, initialRig, Vector3.length.
  cbn [position Vector3.x Vector3.y Vector3.z].
  apply sqrt_between; lra.
Qed.

Lemma zoom_round_trip_witness :
  applyGesture (TwoHandSpread 1) (applyGesture (TwoHandPinch 1) initialRig)
  = initialRig.
Proof.
  pose proof initialRig_distance_tight as Hd.
  destruct (zoom_round_trip initialRig 1) as [Hout _]; [lra |].
  apply Hout; lra.
Defined.

Lemma zoom_steps_add_up_witness :
  applyGesture (TwoHandPinch 0.5) (applyGesture (TwoHandPinch 1) initialRig)
  = applyGesture (TwoHandPinch (1 + 0.5)) initialRig.
Proof.
  destruct (zoom_steps_add_up initialRig 1 0.5 initialRig_distance)
    as [Hpinch _]; [lra | lra | exact Hpinch].
Defined.

(** ** Plot data *)

Lemma spreadMin_spec (vs : list R) (v : R) :
  spreadMin v vs <= v /\
  (forall u, In u vs -> spreadMin v vs <= u) /\
  In (spreadMin v vs) (v :: vs).
Proof.
  unfold spreadMin. revert v.
  induction vs as [| w vs IH]; intros v; cbn [fold_left].
  - split; [lra | split; [intros u [] | left; reflexivity]].
  - destruct (IH (Rmin v w)) as (Hle & Hall & Hin).
    pose proof (Rmin_l v w). pose proof (Rmin_r v w).
    split; [lra | split].
    + intros u [<- | Hu]; [lra | apply Hall; exact Hu].
    + destruct Hin as [Hin | Hin]; [| right; right; exact Hin].
      rewrite <- Hin. unfold Rmin.
      destruct (Rle_dec v w); [left | right; left]; reflexivity.
Qed.

Lemma spreadMax_spec (vs : list R) (v : R) :
  v <= spreadMax v vs /\
  (forall u, In u vs -> u <= spreadMax v vs) /\
  In (spreadMax v vs) (v :: vs).
Proof.
  unfold spreadMax. revert v.
  induction vs as [| w vs IH]; intros v; cbn [fold_left].
  - split; [lra | split; [intros u [] | left; reflexivity]].
  - destruct (IH (Rmax v w)) as (Hle & Hall & Hin).
    pose proof (Rmax_l v w). pose proof (Rmax_r v w).
    split; [lra | split].
    + intros u [<- | Hu]; [lra | apply Hall; exact Hu].
    + destruct Hin as [Hin | Hin]; [| right; right; exact Hin].
      rewrite <- Hin. unfold Rmax.
      destruct (Rle_dec v w); [right; left | left]; reflexivity.
Qed.

Lemma normalize_range (val lo hi : R) :
  lo <= val <= hi -> 0.25 <= normalize val lo hi <= 4.75.
Proof.
  intros [Hlo Hhi]. unfold normalize.
  destruct (Req_EM_T hi lo) as [E | Hne]; [lra |].
  assert (Hpos : 0 < hi - lo) by lra.
  assert (H0 : 0 <= (val - lo) / (hi - lo)).
  { apply Rmult_le_pos; [lra |]. apply Rlt_le, Rinv_0_lt_compat, Hpos. }
  assert (H1 : (val - lo) / (hi - lo) <= 1).
  { apply (Rmult_le_reg_r (hi - lo)); [exact Hpos |].
    unfold Rdiv. rewrite Rmult_assoc, Rinv_l by lra. lra. }
  lra.
Qed.

(** X18: every coordinate the scene plots lies inside the drawn axes:
    for any data array, each entry of the normalised array is between
    0.25 and 4.75 (the axes run from 0 to 5), the array keeps its length,
    and an array whose values are all equal is put at 2.5. *)
Theorem normalizedAxis_in_box (values : list R) :
  length (normalizedAxis values) = length values /\
  Forall (fun c => 0.25 <= c <= 4.75) (normalizedAxis values) /\
  ((forall u w, In u values -> In w values -> u = w) ->
   Forall (fun c => c = 2.5) (normalizedAxis values)).
Proof.
  destruct values as [| v vs]; [repeat split; constructor |].
  cbn [normalizedAxis]. cbv zeta.
  destruct (spreadMin_spec vs v) as (Hmv & Hmall & Hmin).
  destruct (spreadMax_spec vs v) as (HMv & HMall & HMin).
  split; [apply length_map | split].
  - apply Forall_map, Forall_forall. intros u Hu.
    apply normalize_range. destruct Hu as [<- | Hu]; [lra |].
    split; [apply Hmall | apply HMall]; exact Hu.
  - intros Hconst. apply Forall_map, Forall_forall. intros u _.
    unfold normalize.
    destruct (Req_EM_T (spreadMax v vs) (spreadMin v vs)) as [_ | Hne];
      [reflexivity |].
    exfalso. apply Hne. apply Hconst; assumption.
Qed.

(** X19: normalisation keeps the order of the data and uses the whole
    span: for [min < max] it maps [min] to 0.25 and [max] to 4.75 and is
    strictly increasing in the value; for [min = max] every value goes to
    2.5. *)
Theorem normalize_increasing (lo hi u w : R) :
  normalize u lo lo = 2.5 /\
  (lo < hi ->
   normalize lo lo hi = 0.25 /\
   normalize hi lo hi = 4.75 /\
   (u < w -> normalize u lo hi < normalize w lo hi)).
Proof.
  split.
  - unfold normalize. destruct (Req_EM_T lo lo); [reflexivity | lra].
  - intros Hlt. unfold normalize.
    destruct (Req_EM_T hi lo) as [E | Hne]; [lra |].
    split; [| split].
    + unfold Rdiv. rewrite Rminus_diag. lra.
    + unfold Rdiv. rewrite Rinv_r by lra. lra.
    + intros Huw.
      assert (Hinv : 0 < / (hi - lo)) by (apply Rinv_0_lt_compat; lra).
      unfold Rdiv.
      assert ((u - lo) * / (hi - lo) < (w - lo) * / (hi - lo))
        by (apply Rmult_lt_compat_r; lra).
      lra.
Qed.

Lemma normalize_increasing_witness :
  normalize 2 0 10 < normalize 7 0 10.
Proof.
  destruct (normalize_increasing 0 10 2 7) as (_ & H).
  destruct H as (_ & _ & Hinc); [lra |].
  apply Hinc. lra.
Defined.

Lemma normalizedAxis_in_box_witness :
  Forall (fun c => c = 2.5) (normalizedAxis [4; 4; 4]).
Proof.
  destruct (normalizedAxis_in_box [4; 4; 4]) as (_ & _ & Hconst).
  apply Hconst. intros u w Hu Hw. cbn in Hu, Hw.
  repeat (destruct Hu as [<- | Hu]; [| try contradiction]);
    repeat (destruct Hw as [<- | Hw]; [| try contradiction]);
    try reflexivity.
Defined.

Lemma floor_between (lo hi : Z) (v : R) :
  IZR lo <= v <= IZR hi -> (lo <= floor v <= hi)%Z.
Proof.
  intros [Hlo Hhi]. unfold floor.
  destruct (base_Int_part v) as [Hle Hgt]. split.
  - assert (H : IZR (lo - 1) < IZR (Int_part v))
      by (rewrite minus_IZR; lra).
    apply lt_IZR in H. lia.
  - apply le_IZR. lra.
Qed.

Lemma floor_IZR (n : Z) : floor (IZR n) = n.
Proof.
  unfold floor. symmetry. apply Int_part_spec. lra.
Qed.

(** X20: the colour of a data point is a valid colour of the scale: for
    a value between [zMin] and [zMax] the three channels are integers with
    68 <= r <= 253, 1 <= g <= 231 and 37 <= b <= 84 (so within 0..255);
    with [zMin < zMax] the smallest value gets (68, 1, 84) and the largest
    (253, 231, 37). *)
Theorem colorScale_channels (zMin zMax value : R) :
  zMin <= value <= zMax ->
  (let '(r, g, b) := colorScale zMin zMax value in
   (68 <= r <= 253)%Z /\ (1 <= g <= 231)%Z /\ (37 <= b <= 84)%Z) /\
  (zMin < zMax ->
   colorScale zMin zMax zMin = (68, 1, 84)%Z /\
   colorScale zMin zMax zMax = (253, 231, 37)%Z).
Proof.
  intros Hv. split.
  - unfold colorScale. cbv zeta.
    set (t := if Req_EM_T zMax zMin then 0.5
              else (value - zMin) / (zMax - zMin)).
    assert (Ht : 0 <= t <= 1).
    { unfold t. destruct (Req_EM_T zMax zMin) as [E | Hne]; [lra |].
      assert (Hpos : 0 < zMax - zMin) by lra. split.
      - apply Rmult_le_pos; [lra |].
        apply Rlt_le, Rinv_0_lt_compat, Hpos.
      - apply (Rmult_le_reg_r (zMax - zMin)); [exact Hpos |].
        unfold Rdiv. rewrite Rmult_assoc, Rinv_l by lra. lra. }
    split; [| split]; apply floor_between; lra.
  - intros Hlt. unfold colorScale. cbv zeta.
    destruct (Req_EM_T zMax zMin) as [E | Hne]; [lra |].
    unfold Rdiv. rewrite Rminus_diag, Rinv_r by lra. split.
    + replace (68 + 0 * / (zMax - zMin) * (253 - 68)) with 68 by ring.
      replace (1 + 0 * / (zMax - zMin) * (231 - 1)) with 1 by ring.
      replace (84 + 0 * / (zMax - zMin) * (37 - 84)) with 84 by ring.
      rewrite !floor_IZR. reflexivity.
    + replace (68 + 1 * (253 - 68)) with 253 by ring.
      replace (1 + 1 * (231 - 1)) with 231 by ring.
      replace (84 + 1 * (37 - 84)) with 37 by ring.
      rewrite !floor_IZR. reflexivity.
Qed.

Lemma colorScale_channels_witness :
  colorScale 0 10 10 = (253, 231, 37)%Z.
Proof.
  destruct (colorScale_channels 0 10 10) as (_ & Hends); [lra |].
  destruct Hends as [_ Hmax]; [lra | exact Hmax].
Defined.

(** ** Labels *)

Lemma string_length_append (a b : String.string) :
  String.length (String.append a b)
  = (String.length a + String.length b)%nat.
Proof.
  induction a as [| c a IH]; [reflexivity |].
  cbn. rewrite IH. reflexivity.
Qed.

Lemma string_length_prefix (n : nat) (s : String.string) :
  String.length (String.substring 0 n s) = Nat.min n (String.length s).
Proof.
  revert s. induction n as [| n IH]; intros s.
  - destruct s; reflexivity.
  - destruct s as [| c s]; [reflexivity |].
    cbn. rewrite IH. reflexivity.
Qed.

Lemma string_prefix_split (n : nat) (s : String.string) :
  exists rest, s = String.append (String.substring 0 n s) rest.
Proof.
  revert s. induction n as [| n IH]; intros s.
  - exists s. destruct s; reflexivity.
  - destruct s as [| c s]; [exists String.EmptyString; reflexivity |].
    destruct (IH s) as [rest Hrest]. exists rest.
    cbn. rewrite <- Hrest. reflexivity.
Qed.

(** X21: a shortened label is never longer than the label and never
    longer than 21 characters.  Labels of up to 20 characters (and a
    missing label) are shown as they are; a longer label becomes its first
    18 characters followed by three dots, 21 characters in all, so a label
    of exactly 21 characters is not made shorter. *)
Theorem shortLabel_length (l : String.string) :
  shortLabel None = None /\
  exists l',
    shortLabel (Some l) = Some l' /\
    (String.length l' <= String.length l)%nat /\
    (String.length l' <= 21)%nat /\
    ((String.length l <= 20)%nat -> l' = l) /\
    ((20 < String.length l)%nat ->
     String.length l' = 21%nat /\
     exists rest,
       l = String.append (String.substring 0 18 l) rest /\
       l' = String.append (String.substring 0 18 l) "...").
Proof.
  split; [reflexivity |].
  unfold shortLabel.
  destruct (Nat.ltb_spec 20 (String.length l)) as [Hlong | Hshort].
  - assert (Hne : String.eqb l "" = false).
    { destruct l; [cbn in Hlong; lia | reflexivity]. }
    rewrite Hne. cbn [negb andb].
    eexists. split; [reflexivity |].
    assert (Hlen : String.length (String.append (String.substring 0 18 l)
                                                "...") = 21%nat).
    { rewrite string_length_append, string_length_prefix.
      cbn [String.length]. lia. }
    rewrite Hlen.
    split; [lia | split; [lia | split; [lia |]]].
    intros _. split; [reflexivity |].
    destruct (string_prefix_split 18 l) as [rest Hrest].
    exists rest. split; [exact Hrest | reflexivity].
  - rewrite andb_false_r. exists l.
    split; [reflexivity |].
    split; [lia | split; [lia | split; [reflexivity | lia]]].
Qed.

Lemma shortLabel_length_witness :
  shortLabel (Some "International Money Transfers"%string)
  = Some "International Mone..."%string.
Proof.
  destruct (shortLabel_length "International Money Transfers"%string)
    as (_ & l' & E & _ & _ & _ & Hlong).
  rewrite E. f_equal.
  destruct Hlong as (_ & rest & _ & ->); [cbn; lia | reflexivity].
Defined.

(** ** Labelled points *)

Lemma insertByVal_perm (a : R * nat) (l : list (R * nat)) :
  Permutation (insertByVal a l) (a :: l).
Proof.
  induction l as [| b l IH]; cbn [insertByVal]; [reflexivity |].
  destruct (Rle_dec (fst b) (fst a)); [reflexivity |].
  rewrite IH. apply perm_swap.
Qed.

Lemma sortByValDesc_perm (l : list (R * nat)) :
  Permutation (sortByValDesc l) l.
Proof.
  induction l as [| a l IH]; [reflexivity |].
  cbn [sortByValDesc fold_right]. fold (sortByValDesc l).
  rewrite insertByVal_perm. constructor. exact IH.
Qed.

Lemma insertByVal_sorted (a : R * nat) (l : list (R * nat)) :
  StronglySorted byValDesc l -> StronglySorted byValDesc (insertByVal a l).
Proof.
  induction l as [| b l IH]; intros Hs; cbn [insertByVal].
  - repeat constructor.
  - inversion Hs as [| b' l' Hl Hb]; subst.
    destruct (Rle_dec (fst b) (fst a)) as [Hle | Hgt].
    + constructor; [exact Hs |]. constructor; [exact Hle |].
      rewrite Forall_forall in Hb |- *. intros c Hc.
      specialize (Hb c Hc). unfold byValDesc in *. lra.
    + constructor; [apply IH; exact Hl |].
      rewrite Forall_forall in Hb |- *. intros c Hc.
      apply (Permutation_in _ (insertByVal_perm a l)) in Hc.
      destruct Hc as [<- | Hc]; [unfold byValDesc; lra | apply Hb, Hc].
Qed.

Lemma sortByValDesc_sorted (l : list (R * nat)) :
  StronglySorted byValDesc (sortByValDesc l).
Proof.
  induction l as [| a l IH]; [constructor |].
  cbn [sortByValDesc fold_right]. apply insertByVal_sorted. exact IH.
Qed.

Lemma sorted_front_dominates (l1 l2 : list (R * nat)) :
  StronglySorted byValDesc (l1 ++ l2) ->
  forall a b, In a l1 -> In b l2 -> fst b <= fst a.
Proof.
  induction l1 as [| c l1 IH]; intros Hs a b Ha Hb; [destruct Ha |].
  cbn in Hs. inversion Hs as [| c' l' Hl Hc]; subst.
  destruct Ha as [<- | Ha].
  - rewrite Forall_forall in Hc. apply (Hc b).
    apply in_or_app. right. exact Hb.
  - apply (IH Hl a b Ha Hb).
Qed.

Lemma withIndex_snd (zs : list R) :
  map snd (withIndex zs) = seq 0 (length zs).
Proof.
  unfold withIndex. generalize 0%nat.
  induction zs as [| v zs IH]; intros n; [reflexivity |].
  cbn. f_equal. apply IH.
Qed.

Lemma withIndex_In (zs : list R) (v : R) (i : nat) :
  In (v, i) (withIndex zs) <-> nth_error zs i = Some v.
Proof.
  unfold withIndex.
  assert (H : forall n,
             In (v, i) (combine zs (seq n (length zs))) <->
             (n <= i)%nat /\ nth_error zs (i - n) = Some v).
  { induction zs as [| w zs IH]; intros n.
    - cbn. split; [intros [] | intros [_ E]].
      destruct (i - n)%nat; discriminate E.
    - cbn [length seq combine In]. rewrite IH. split.
      + intros [E | [Hle Hn]].
        * injection E as -> ->. split; [lia |].
          rewrite Nat.sub_diag. reflexivity.
        * split; [lia |].
          replace (i - n)%nat with (S (i - S n)) by lia. exact Hn.
      + intros [Hle Hn]. destruct (Nat.eq_dec n i) as [-> | Hne].
        * left. rewrite Nat.sub_diag in Hn. cbn in Hn.
          injection Hn as ->. reflexivity.
        * right. split; [lia |].
          replace (i - n)%nat with (S (i - S n)) in Hn by lia. exact Hn. }
  rewrite H, Nat.sub_0_r. split; [intros [_ E]; exact E | intros E].
  split; [lia | exact E].
Qed.

(** X22: the labelled points are the top 31 by value.  [topIndices]
    holds min(31, n) distinct valid indices, and no point left out has a
    larger value than a point taken: for [i] in the set and a valid [j]
    outside it, [z[j] <= z[i]]. *)
Theorem topIndices_are_the_top (zs : list R) :
  length (topIndices zs) = Nat.min 31 (length zs) /\
  NoDup (topIndices zs) /\
  (forall i, In i (topIndices zs) -> (i < length zs)%nat) /\
  (forall i j vi vj,
      In i (topIndices zs) ->
      ~ In j (topIndices zs) ->
      nth_error zs i = Some vi ->
      nth_error zs j = Some vj ->
      vj <= vi).
Proof.
  set (sorted := sortByValDesc (withIndex zs)).
  assert (Hperm : Permutation sorted (withIndex zs))
    by apply sortByValDesc_perm.
  assert (Hidx : Permutation (map snd sorted) (seq 0 (length zs))).
  { rewrite <- withIndex_snd. apply Permutation_map. exact Hperm. }
  assert (Hnodup : NoDup (map snd sorted)).
  { apply (Permutation_NoDup (Permutation_sym Hidx)). apply seq_NoDup. }
  assert (Hsplit : sorted = firstn 31 sorted ++ skipn 31 sorted)
    by (symmetry; apply firstn_skipn).
  assert (Hsorted : StronglySorted byValDesc
                      (firstn 31 sorted ++ skipn 31 sorted)).
  { rewrite <- Hsplit. apply sortByValDesc_sorted. }
  unfold topIndices. fold sorted.
  split; [| split; [| split]].
  - rewrite length_map, length_firstn.
    rewrite (Permutation_length Hperm). unfold withIndex.
    rewrite length_combine, length_seq. lia.
  - rewrite Hsplit, map_app in Hnodup.
    apply NoDup_app_remove_r in Hnodup. exact Hnodup.
  - intros i Hi.
    assert (Hin : In i (map snd sorted)).
    { rewrite Hsplit, map_app. apply in_or_app. left. exact Hi. }
    apply (Permutation_in _ Hidx) in Hin. apply in_seq in Hin. lia.
  - intros i j vi vj Hi Hj Ei Ej.
    apply in_map_iff in Hi as ([v i'] & Hsnd & Hfront).
    cbn in Hsnd. subst i'.
    assert (Hv : v = vi).
    { assert (Hin : In (v, i) (withIndex zs)).
      { apply (Permutation_in _ Hperm). rewrite Hsplit.
        apply in_or_app. left. exact Hfront. }
      apply withIndex_In in Hin. congruence. }
    subst v.
    assert (Hback : In (vj, j) (skipn 31 sorted)).
    { assert (Hin : In (vj, j) sorted).
      { apply (Permutation_in _ (Permutation_sym Hperm)).
        apply withIndex_In. exact Ej. }
      rewrite Hsplit in Hin. apply in_app_or in Hin as [Hin | Hin];
        [| exact Hin].
      exfalso. apply Hj. apply in_map_iff. exists (vj, j).
      split; [reflexivity | exact Hin]. }
    apply (sorted_front_dominates _ _ Hsorted (vi, i) (vj, j) Hfront Hback).
Qed.

(** ** From the detector to the camera *)

(** X23: one emitted zoom gesture moves the camera by at most half a
    unit.  Whatever frame and refs produced it, a two-hand gesture emitted
    by [onResults] and applied to a camera in range changes the camera
    distance by at most 0.5 and keeps it in range. *)
Theorem emitted_zoom_step_is_small {K : Type} {OC : OrbitControls K}
        (t t' : Tracker) (r : option (list Hand)) (g : Gesture)
        (rig : Rig K) :
  onResults r t = (Normal (Emit (Some g)), t') ->
  isZoom g = true ->
  3 <= cameraDistance rig <= 20 ->
  Rabs (cameraDistance (applyGesture g rig) - cameraDistance rig) <= 0.5 /\
  3 <= cameraDistance (applyGesture g rig) <= 20.
Proof.
  intros E Hz Hr.
  assert (Hs : forall s, strengthOf (Some g) = Some s -> 0.096 < s <= 1).
  { intros s Hs.
    destruct (onResults_emits t t' r (Some g) E) as [Hnone | [d Hd]].
    - rewrite Hnone in Hs. discriminate Hs.
    - rewrite Hd in Hs. apply (zoom_strength_range d s Hs). }
  rewrite zoom_distance by lra.
  destruct g as [p d | s | s]; [discriminate Hz | |];
    specialize (Hs s eq_refl); unfold Rabs;
    clamp; destruct (Rcase_abs _); lra.
Qed.

Lemma emitted_zoom_step_is_small_witness :
  Rabs (cameraDistance (applyGesture (TwoHandPinch 0.108) initialRig)
        - cameraDistance initialRig) <= 0.5.
Proof.
  destruct (emitted_zoom_step_is_small _ _ _ (TwoHandPinch 0.108) initialRig
              sample_pinch_frame eq_refl initialRig_distance)
    as [Hstep _].
  exact Hstep.
Defined.

(** ** Hover animation *)

Lemma hoverFrame_gap (hovered isHovered : bool) (scale : Vector3.t) :
  let target := if (hovered || isHovered)%bool then 1.5 else 1 in
  let next := hoverFrame true hovered isHovered scale in
  Vector3.x next - target = 0.9 * (Vector3.x scale - target) /\
  Vector3.y next - target = 0.9 * (Vector3.y scale - target) /\
  Vector3.z next - target = 0.9 * (Vector3.z scale - target).
Proof.
  cbv zeta. unfold hoverFrame, lerp.
  cbn [Vector3.x Vector3.y Vector3.z].
  destruct (hovered || isHovered)%bool; repeat split; lra.
Qed.

(** X24: the hover animation closes in on its target without
    overshooting: with the hover state unchanged, after [n] render frames
    the gap between each scale component and the target (1.5 when
    hovered, 1 otherwise) is 0.9^n times the initial gap, so the point
    starting at scale 1 stays between 1 and 1.5. *)
Theorem hover_scale_converges (n : nat) (hovered isHovered : bool)
        (scale : Vector3.t) :
  let target := if (hovered || isHovered)%bool then 1.5 else 1 in
  let final := hoverFrames n hovered isHovered scale in
  Vector3.x final - target = 0.9 ^ n * (Vector3.x scale - target) /\
  Vector3.y final - target = 0.9 ^ n * (Vector3.y scale - target) /\
  Vector3.z final - target = 0.9 ^ n * (Vector3.z scale - target) /\
  (1 <= Vector3.x scale <= 1.5 -> 1 <= Vector3.x final <= 1.5).
Proof.
  cbv zeta. revert scale.
  induction n as [| n IH]; intros scale.
  - cbn [hoverFrames pow]. repeat split; lra.
  - cbn [hoverFrames].
    destruct (IH (hoverFrame true hovered isHovered scale))
      as (Hx & Hy & Hz & Hbox).
    destruct (hoverFrame_gap hovered isHovered scale) as (Gx & Gy & Gz).
    cbv zeta in Gx, Gy, Gz.
    rewrite Gx in Hx. rewrite Gy in Hy. rewrite Gz in Hz.
    split; [| split; [| split]].
    + rewrite Hx. cbn [pow]. ring.
    + rewrite Hy. cbn [pow]. ring.
    + rewrite Hz. cbn [pow]. ring.
    + intros Hs. apply Hbox.
      destruct (hovered || isHovered)%bool; lra.
Qed.
